(** * M/M/1 queue simulator: a shallow embedding of [simulate_mm1_queue]

    The development follows [src/mm1_queue_simulation.py] line by line.

    - Python floats are modelled by exact rationals ([Q], compared with
      [==]), so rounding is left out; the value [float('inf')] of
      [next_departure_time] is [None].  Module [Binary64] repeats the
      ledger computation in IEEE 754 binary64 where rounding decides.
    - The global numpy generator is threaded explicitly.  Its state is
      the stream of standard exponential variates it is still going to
      produce; [np.random.exponential(scale)] multiplies the next one by
      [scale].  [random.seed] touches a generator the function never
      draws from and is left out.
    - A call returns, raises, or is cut off by the bound on the number
      of loop iterations; an exception leaves the generator in the state
      it was raised in.
    - [state_time] is a finite map from population counts to times. *)

From Stdlib Require Import ZArith QArith Qabs Qround Lqa Lia.
From stdpp Require Import base option list gmap.
From Stdlib Require Import Qminmax Sorted.
From stdpp Require Import strings.
From Stdlib Require Floats.

Local Open Scope Q_scope.

(** ** Exceptions, generator state and the monad of the engine *)

Inductive exn : Type :=
  | ZeroDivisionError
  | ValueError.

(** State of [np.random]: the variates [standard_exponential()] returns
    from now on, in call order. *)
Definition rng : Type := nat -> Q.

(** How a computation ends: with a value, with an exception, or because
    the loop used up the iterations it was allowed. *)
Inductive outcome (A : Type) : Type :=
  | Returned (a : A)
  | Raised (e : exn)
  | OutOfFuel.
Arguments Returned {A} a.
Arguments Raised {A} e.
Arguments OutOfFuel {A}.

(** Computations that draw from the generator and may raise. *)
Definition M (A : Type) : Type := rng -> outcome A * rng.

#[global] Instance M_ret : MRet M := fun A a g => (Returned a, g).
#[global] Instance M_bind : MBind M := fun A B k m g =>
  match m g with
  | (Returned a, g') => k a g'
  | (Raised e, g') => (Raised e, g')
  | (OutOfFuel, g') => (OutOfFuel, g')
  end.

Definition raise {A} (e : exn) : M A := fun g => (Raised e, g).
Definition out_of_fuel {A} : M A := fun g => (OutOfFuel, g).

(** [x < y] on floats. *)
Definition Qlt_bool (x y : Q) : bool := negb (Qle_bool y x).

(** [x / y] on Python numbers. *)
Definition py_div (x y : Q) : M Q :=
  if Qeq_bool y 0 then raise ZeroDivisionError else mret (x / y).

(** [np.random.exponential(scale)]: numpy rejects a negative scale and
    otherwise returns [scale * standard_exponential()]. *)
Definition np_random_exponential (scale : Q) : M Q := fun g =>
  if Qlt_bool scale 0 then (Raised ValueError, g)
  else (Returned (scale * g 0%nat), fun k => g (S k)).

(** [np.random.exponential(scale=1.0/rate)] *)
Definition sample (rate : Q) : M Q :=
  scale ← py_div 1 rate; np_random_exponential scale.

(** ** Data model *)

(** One entry of [customer_stats]:
    [(arrival_time, service_start_time, departure_time)]. *)
Record customer : Type := Customer {
  arrival_time : Q;
  service_start_time : Q;
  departure_time : Q
}.

(** The local variables of [simulate_mm1_queue] that live across loop
    iterations. *)
Record sim_state : Type := SimState {
  current_time : Q;
  server_busy : bool;
  server_start_time : Q;
  next_departure_time : option Q;
  queue : list Q;
  customer_stats : list customer;
  last_event_time : Q;
  state_time : gmap Z Q;
  current_state : Z;
  next_arrival_time : Q
}.

(** The dictionary returned by [simulate_mm1_queue]. *)
Record result : Type := Result {
  total_customers : nat;
  completed_customers : nat;
  total_system_time : Q;
  total_queue_time : Q;
  server_busy_time : Q;
  average_system_time : Q;
  average_queue_time : Q;
  server_utilization : Q;
  average_system_length : Q;
  average_queue_length : Q;
  state_probabilities : gmap Z Q
}.

(** [d.get(k, 0)] *)
Definition dict_get (d : gmap Z Q) (k : Z) : Q := default 0 (d !! k).

(** [state_time[n] = state_time.get(n, 0) + dt] *)
Definition ledger_add (d : gmap Z Q) (n : Z) (dt : Q) : gmap Z Q :=
  <[n := dict_get d n + dt]> d.

(** Python's [sum] over a list of floats. *)
Definition py_sum (l : list Q) : Q := fold_left Qplus l 0.

(** [sum(w(n) * t for n, t in d.items())] *)
Definition weighted_sum (w : Z -> Q) (d : gmap Z Q) : Q :=
  map_fold (fun n t acc => acc + w n * t) 0 d.

(** [sum(d.values())] *)
Definition ledger_total (d : gmap Z Q) : Q := weighted_sum (fun _ => 1) d.

(** The integers [np.random.seed] accepts. *)
Definition valid_seed (s : Z) : bool :=
  (0 <=? s)%Z && (s <? 2 ^ 32)%Z.

Inductive event : Type :=
  | Arrival
  | Departure (t : Q).

Section Engine.

(** [np.random.seed(s)] accepts an integer between 0 and 2**32 - 1 and
    puts the generator in a state that depends on [s] alone; any other
    integer is rejected with [ValueError]. *)
Variable seeded : Z -> rng.

Definition np_random_seed (s : Z) : M unit := fun g =>
  if valid_seed s then (Returned tt, seeded s) else (Raised ValueError, g).

Variables arrival_rate service_rate simulation_time : Q.

(** Lines 11-24: the state before the first test of the loop condition,
    given the first inter-arrival sample. *)
Definition initial_state (first_arrival : Q) : sim_state :=
  {| current_time := 0;
     server_busy := false;
     server_start_time := 0;
     next_departure_time := None;
     queue := [];
     customer_stats := [];
     last_event_time := 0;
     state_time := {[ 0%Z := 0 ]};
     current_state := 0%Z;
     next_arrival_time := first_arrival |}.

(** Line 29: [next_arrival_time <= next_departure_time], where the right
    side may be [inf]. *)
Definition next_event (st : sim_state) : event :=
  match next_departure_time st with
  | None => Arrival
  | Some d => if Qle_bool (next_arrival_time st) d then Arrival else Departure d
  end.

(** Lines 30-52. *)
Definition process_arrival (st : sim_state) : M sim_state :=
  let ledger := ledger_add (state_time st) (current_state st)
                  (next_arrival_time st - last_event_time st) in
  let now := next_arrival_time st in
  gap ← sample arrival_rate;
  if server_busy st then
    mret {| current_time := now;
            server_busy := true;
            server_start_time := server_start_time st;
            next_departure_time := next_departure_time st;
            queue := queue st ++ [now];
            customer_stats := customer_stats st;
            last_event_time := now;
            state_time := ledger;
            current_state := (current_state st + 1)%Z;
            next_arrival_time := now + gap |}
  else
    service_time ← sample service_rate;
    mret {| current_time := now;
            server_busy := true;
            server_start_time := now;
            next_departure_time := Some (now + service_time);
            queue := queue st;
            customer_stats :=
              customer_stats st ++ [Customer now now (now + service_time)];
            last_event_time := now;
            state_time := ledger;
            current_state := (current_state st + 1)%Z;
            next_arrival_time := now + gap |}.

(** Lines 55-75, with [d] the finite [next_departure_time]. *)
Definition process_departure (d : Q) (st : sim_state) : M sim_state :=
  let ledger := ledger_add (state_time st) (current_state st)
                  (d - last_event_time st) in
  match queue st with
  | a :: waiting =>
    service_time ← sample service_rate;
    mret {| current_time := d;
            server_busy := server_busy st;
            server_start_time := d;
            next_departure_time := Some (d + service_time);
            queue := waiting;
            customer_stats :=
              customer_stats st ++ [Customer a d (d + service_time)];
            last_event_time := d;
            state_time := ledger;
            current_state := (current_state st - 1)%Z;
            next_arrival_time := next_arrival_time st |}
  | [] =>
    mret {| current_time := d;
            server_busy := false;
            server_start_time := server_start_time st;
            next_departure_time := None;
            queue := [];
            customer_stats := customer_stats st;
            last_event_time := d;
            state_time := ledger;
            current_state := (current_state st - 1)%Z;
            next_arrival_time := next_arrival_time st |}
  end.

(** One iteration of the [while] body. *)
Definition iteration (st : sim_state) : M sim_state :=
  match next_event st with
  | Arrival => process_arrival st
  | Departure d => process_departure d st
  end.

(** Line 27: the loop, cut off after [fuel] iterations. *)
Fixpoint event_loop (fuel : nat) (st : sim_state) : M sim_state :=
  if Qlt_bool (current_time st) simulation_time then
    match fuel with
    | O => out_of_fuel
    | S fuel' => st' ← iteration st; event_loop fuel' st'
    end
  else mret st.

(** Line 78. *)
Definition final_update (st : sim_state) : sim_state :=
  {| current_time := current_time st;
     server_busy := server_busy st;
     server_start_time := server_start_time st;
     next_departure_time := next_departure_time st;
     queue := queue st;
     customer_stats := customer_stats st;
     last_event_time := last_event_time st;
     state_time := ledger_add (state_time st) (current_state st)
                     (simulation_time - last_event_time st);
     current_state := current_state st;
     next_arrival_time := next_arrival_time st |}.

(** Lines 6-78: seeding, initialisation, the loop and the final ledger
    update. *)
Definition run_engine (seed : option Z) (fuel : nat) : M sim_state :=
  _ ← match seed with Some s => np_random_seed s | None => mret tt end;
  first_arrival ← sample arrival_rate;
  st ← event_loop fuel (initial_state first_arrival);
  mret (final_update st).

(** [departure_time <= simulation_time] *)
Definition completed (c : customer) : bool :=
  Qle_bool (departure_time c) simulation_time.

(** [next_departure_time > simulation_time], true for [inf]. *)
Definition departs_after_horizon (nd : option Q) : bool :=
  match nd with
  | None => true
  | Some d => Qlt_bool simulation_time d
  end.

(** Lines 89-101. *)
Definition busy_time (st : sim_state) : Q :=
  let served :=
    fold_left (fun acc c => acc + (departure_time c - service_start_time c))
              (List.filter completed (customer_stats st)) 0 in
  if server_busy st && departs_after_horizon (next_departure_time st)
  then served + (simulation_time - server_start_time st)
  else served.

(** [np.mean(l) if l else 0] *)
Definition mean_or_zero (l : list Q) : Q :=
  match l with
  | [] => 0
  | _ => py_sum l / inject_Z (Z.of_nat (length l))
  end.

(** Lines 81-128. *)
Definition statistics (st : sim_state) : M result :=
  let done := List.filter completed (customer_stats st) in
  let system_times := map (fun c => departure_time c - arrival_time c) done in
  let queue_times := map (fun c => service_start_time c - arrival_time c) done in
  utilization ← py_div (busy_time st) simulation_time;
  avg_system_length ←
    py_div (weighted_sum inject_Z (state_time st)) simulation_time;
  avg_queue_length ←
    py_div (weighted_sum (fun n => inject_Z (Z.max 0 (n - 1))) (state_time st))
           simulation_time;
  mret {| total_customers := length (customer_stats st);
          completed_customers := length done;
          total_system_time := py_sum system_times;
          total_queue_time := py_sum queue_times;
          server_busy_time := busy_time st;
          average_system_time := mean_or_zero system_times;
          average_queue_time := mean_or_zero queue_times;
          server_utilization := utilization;
          average_system_length := avg_system_length;
          average_queue_length := avg_queue_length;
          state_probabilities :=
            (fun t => t / simulation_time) <$> state_time st |}.

Definition simulate_mm1_queue (seed : option Z) (fuel : nat) : M result :=
  st ← run_engine seed fuel; statistics st.

End Engine.


(** ** Runs and their invariants *)

Section Runs.

Variables arrival_rate service_rate simulation_time : Q.

(** The states the loop condition is tested in: the initial one, and the
    one after every iteration that was entered and did not raise. *)
Inductive reachable : sim_state -> Prop :=
  | reachable_init first_arrival :
      reachable (initial_state first_arrival)
  | reachable_step st g st' g' :
      reachable st ->
      current_time st < simulation_time ->
      iteration arrival_rate service_rate st g = (Returned st', g') ->
      reachable st'.

(** A record whose departure lies beyond the horizon. *)
Definition late (c : customer) : bool := negb (completed simulation_time c).

(** Bookkeeping that ties the server flag, the pending departure, the
    waiting line and the population count together. *)
Record engine_inv (st : sim_state) : Prop := EngineInv {
  inv_ledger : ledger_total (state_time st) == last_event_time st;
  inv_idle : server_busy st = false <-> next_departure_time st = None;
  inv_line : server_busy st = false -> queue st = [];
  inv_count :
    current_state st
    = (Z.of_nat (length (queue st)) + (if server_busy st then 1 else 0))%Z
}.

(** The records split into those whose departure was processed and the
    one in service, if any; all processed departures but the last lie
    before the horizon. *)
Definition records_inv (st : sim_state) : Prop :=
  exists served pending,
    customer_stats st = served ++ pending /\
    (if server_busy st
     then exists c, pending = [c] /\
                    next_departure_time st = Some (departure_time c) /\
                    server_start_time st = service_start_time c
     else pending = []) /\
    (length (List.filter late served) <= 1)%nat /\
    (current_time st < simulation_time -> List.filter late served = []).

Definition well_timed (c : customer) : Prop :=
  arrival_time c <= service_start_time c /\
  service_start_time c <= departure_time c.

(** The clock never passes a pending event, and nobody in the line or in
    the records comes from the future. *)
Record time_inv (st : sim_state) : Prop := TimeInv {
  inv_arrival_ahead : current_time st <= next_arrival_time st;
  inv_departure_ahead :
    forall d, next_departure_time st = Some d -> current_time st <= d;
  inv_line_past : Forall (fun a => a <= current_time st) (queue st);
  inv_records : Forall well_timed (customer_stats st)
}.

(** Service periods follow one another: each record starts no earlier
    than [t] and than the departure of the record before it. *)
Fixpoint sequential (t : Q) (l : list customer) : Prop :=
  match l with
  | [] => True
  | c :: l' =>
    t <= service_start_time c /\
    service_start_time c <= departure_time c /\
    sequential (departure_time c) l'
  end.

(** Departure time of the last record, [t] when there is none. *)
Definition last_departure (t : Q) (l : list customer) : Q :=
  fold_left (fun _ c => departure_time c) l t.

(** The busy time the statistics attribute to completed customers. *)
Definition served_time (l : list customer) : Q :=
  fold_left (fun acc c => acc + (departure_time c - service_start_time c))
            (List.filter (completed simulation_time) l) 0.

(** The records are sequential, the last one is the customer in service
    when the server is busy, and all have left when it is idle. *)
Definition service_inv (st : sim_state) : Prop :=
  sequential 0 (customer_stats st) /\
  if server_busy st
  then exists served c,
         customer_stats st = served ++ [c] /\
         server_start_time st = service_start_time c /\
         next_departure_time st = Some (departure_time c)
  else last_departure 0 (customer_stats st) <= current_time st.

End Runs.

Definition nonneg (g : rng) : Prop := forall k, 0 <= g k.

(** Every variate is at least [delta]. *)
Definition at_least (delta : Q) (g : rng) : Prop := forall k, delta <= g k.

(** A bound on the arrivals that can still be scheduled before the
    horizon when inter-arrival variates are at least [delta], and the
    measure that decreases with every iteration of the loop. *)
Definition arrivals_left (arrival_rate simulation_time delta : Q)
    (st : sim_state) : nat :=
  if Qlt_bool (next_arrival_time st) simulation_time
  then S (Z.to_nat (Qfloor ((simulation_time - next_arrival_time st)
                            * arrival_rate / delta)))
  else 0%nat.

Definition potential (arrival_rate simulation_time delta : Q)
    (st : sim_state) : nat :=
  (3 * arrivals_left arrival_rate simulation_time delta st
   + Z.to_nat (current_state st))%nat.

(** The [seed] argument is [None] or an integer numpy accepts. *)
Definition seed_ok (seed : option Z) : Prop :=
  match seed with
  | Some s => valid_seed s = true
  | None => True
  end.

(** The generator a run starts from, for such a seed. *)
Definition start_rng (seeded : Z -> rng) (seed : option Z) (g : rng) : rng :=
  match seed with
  | Some s => seeded s
  | None => g
  end.

(** A computation that ended, by returning or by raising. *)
Definition finished {A} (r : outcome A * rng) : Prop := r.1 <> OutOfFuel.

(** ** Concrete runs used as test inputs *)

(** A generator whose variates are all 1, and one whose variates are all
    5. *)
Definition unit_draws : rng := fun _ => 1.
Definition long_draws : rng := fun _ => 5.

(** Arrivals every time unit, service lasting half a unit, horizon 3. *)
Definition steady_run : outcome result * rng :=
  simulate_mm1_queue (fun _ => unit_draws) 1 2 3 (Some 42%Z) 10 long_draws.

(** The first variates numpy's legacy generator yields after
    [np.random.seed(42)], rounded to four decimals: 0.4693, 3.0101,
    1.3167; the later ones play no role below. *)
Definition seed42_draws : rng := fun k =>
  match k with
  | 0%nat => 4693 # 10000
  | 1%nat => 30101 # 10000
  | 2%nat => 13167 # 10000
  | _ => 1
  end.

(** [simulate_mm1_queue(1, 1, 0.1, seed=42)]: the first arrival, at
    0.4693, falls after the horizon 0.1. *)
Definition overshoot_run : outcome result * rng :=
  simulate_mm1_queue (fun _ => seed42_draws) 1 1 (1 # 10) (Some 42%Z) 10
    unit_draws.

(** Rates 1 and a horizon of -1. *)
Definition negative_horizon_run : outcome result * rng :=
  simulate_mm1_queue (fun _ => unit_draws) 1 1 (-1) None 10 unit_draws.

(** An arrival rate of 0, reseeding a generator that was at [long_draws]. *)
Definition zero_rate_run : outcome result * rng :=
  simulate_mm1_queue (fun _ => unit_draws) 0 1 1 (Some 42%Z) 10 long_draws.

(** A state in which the next arrival and the pending departure are both
    scheduled at time 2. *)
Definition tied_state : sim_state :=
  {| current_time := 1;
     server_busy := true;
     server_start_time := 1;
     next_departure_time := Some 2;
     queue := [];
     customer_stats := [Customer 1 1 2];
     last_event_time := 1;
     state_time := {[ 0%Z := 1 ]};
     current_state := 1%Z;
     next_arrival_time := 2 |}.

(** ** States along one run *)

Section RunStates.

Variables arrival_rate service_rate simulation_time : Q.

(** The states, with the generator state that goes with them, that the
    call passes through when the generator is at [g0] after the
    optional reseeding. *)
Inductive run_state (g0 : rng) : sim_state -> rng -> Prop :=
  | run_state_init :
      0 < arrival_rate ->
      run_state g0 (initial_state (1 / arrival_rate * g0 0%nat))
        (fun k => g0 (S k))
  | run_state_step st g st' g' :
      run_state g0 st g ->
      current_time st < simulation_time ->
      iteration arrival_rate service_rate st g = (Returned st', g') ->
      run_state g0 st' g'.

End RunStates.

(** Arrival times of all customers that have arrived, those that reached
    service first, then the waiting line. *)
Definition arrivals (st : sim_state) : list Q :=
  map arrival_time (customer_stats st) ++ queue st.

(** Each service starts at the later of the customer's arrival and the
    departure of the customer before, [prev] standing for the latter at
    the head of the list. *)
Fixpoint lindley (prev : Q) (l : list customer) : Prop :=
  match l with
  | [] => True
  | c :: l' =>
    service_start_time c == Qmax prev (arrival_time c) /\
    lindley (departure_time c) l'
  end.

(** The population counts with a ledger entry are [0..m] for some [m],
    and the current count is at most one above. *)
Definition keys_inv (st : sim_state) : Prop :=
  exists m : Z,
    (0 <= m)%Z /\
    (forall n, is_Some (state_time st !! n) <-> (0 <= n <= m)%Z) /\
    (current_state st <= m + 1)%Z.

(** Number of variates drawn since the optional reseeding. *)
Definition consumed (st : sim_state) : nat :=
  (1 + 2 * length (customer_stats st) + length (queue st))%nat.

(** ** The reporting wrapper [run_mm1_simulation] *)

(** [max(l)] on integers; an empty argument raises [ValueError]. *)
Definition py_max (l : list Z) : M Z :=
  match l with
  | [] => raise ValueError
  | x :: l' => mret (fold_left Z.max l' x)
  end.

(** [range(n)] *)
Definition py_range (n : Z) : list Z := map Z.of_nat (seq 0 (Z.to_nat n)).

(** [d.keys()] *)
Definition dict_keys (d : gmap Z Q) : list Z := (map_to_list d).*1.

(** The numbers [run_mm1_simulation] computes for its printout besides
    the fields of the result: the traffic intensity (line 143), the two
    averages times 60 (lines 153-154) and one [(n, prob)] pair per line
    of the table (lines 160-163).  Their formatting as text is not
    modelled. *)
Record report : Type := Report {
  traffic_intensity : Q;
  shown_system_time : Q;
  shown_queue_time : Q;
  state_rows : list (Z * Q)
}.

Section Wrapper.

Variable seeded : Z -> rng.

(** Lines 130-165; the result is what the function returns, the report
    what it prints on the way. *)
Definition run_mm1_simulation (arrival_rate service_rate simulation_time : Q)
    (seed : option Z) (fuel : nat) : M (result * report) :=
  results ← simulate_mm1_queue seeded arrival_rate service_rate
              simulation_time seed fuel;
  rho ← py_div arrival_rate service_rate;
  max_state ← py_max (dict_keys (state_probabilities results));
  let rows :=
    map (fun i => (i, dict_get (state_probabilities results) i))
        (py_range (max_state + 1)) in
  mret (results,
        {| traffic_intensity := rho;
           shown_system_time := average_system_time results * 60;
           shown_queue_time := average_queue_time results * 60;
           state_rows := rows |}).

End Wrapper.

(** ** The analysis script [mm1_queue_analysis.py] *)

Module Analysis.

(** One entry of [scenarios]. *)
Record scenario : Type := Scenario {
  label : string;
  arrival_rate : Q;
  service_rate : Q
}.

(** Lines 6-13. *)
Definition scenarios : list scenario :=
  [ Scenario "ρ = 0.5" 6 12;
    Scenario "ρ = 0.8" (96 # 10) 12;
    Scenario "ρ = 0.9" (108 # 10) 12 ].

Definition simulation_time : Q := 20000.
Definition seed : Z := 42.
Definition mu : Q := 12.

Section Script.

Variable seeded : Z -> rng.

(** Lines 18-24, with the two lists built so far. *)
Fixpoint scenario_loop (todo : list scenario) (horizon : Q) (s : Z)
    (fuel : nat) (rhos sim_wqs : list Q) : M (list Q * list Q) :=
  match todo with
  | [] => mret (rhos, sim_wqs)
  | sc :: rest =>
    rho ← py_div (arrival_rate sc) (service_rate sc);
    results ← simulate_mm1_queue seeded (arrival_rate sc) (service_rate sc)
                horizon (Some s) fuel;
    scenario_loop rest horizon s fuel
      (rhos ++ [rho]) (sim_wqs ++ [average_queue_time results])
  end.

(** Lines 15-24. *)
Definition run_scenarios (todo : list scenario) (horizon : Q) (s : Z)
    (fuel : nat) : M (list Q * list Q) :=
  scenario_loop todo horizon s fuel [] [].

End Script.

(** [np.linspace(start, stop, num)]: [num] evenly spaced points, the
    first at [start] and the last at [stop]. *)
Definition linspace (start stop : Q) (num : nat) : list Q :=
  map (fun i => start
                + inject_Z (Z.of_nat i)
                  * ((stop - start) / inject_Z (Z.of_nat (num - 1))))
      (seq 0 num).

(** Line 29, for one point of the curve. *)
Definition wq (m rho : Q) : Q := rho / (m * (1 - rho)).

(** Lines 28-29. *)
Definition rho_curve : list Q := linspace (1 # 100) (99 # 100) 100.
Definition wq_theoretical (m : Q) (curve : list Q) : list Q :=
  map (wq m) curve.

End Analysis.

(** ** Further concrete runs *)

(** Arrivals every half time unit, service lasting one unit, horizon 3:
    the line builds up. *)
Definition congested_engine : outcome sim_state * rng :=
  run_engine (fun _ => unit_draws) 2 1 3 (Some 42%Z) 20 long_draws.

Definition congested_run : outcome result * rng :=
  simulate_mm1_queue (fun _ => unit_draws) 2 1 3 (Some 42%Z) 20 long_draws.

Definition congested_report : outcome (result * report) * rng :=
  run_mm1_simulation (fun _ => unit_draws) 2 1 3 (Some 42%Z) 20 long_draws.

(** Two scenarios run one after the other with horizon 3. *)
Definition two_scenarios : list Analysis.scenario :=
  [ Analysis.Scenario "light" 1 2; Analysis.Scenario "heavy" 2 1 ].

(** ** The ledger in binary64

    The definitions above compute with exact rationals.  This module
    repeats lines 5-78, the division of line 106 and line 114 of
    [simulate_mm1_queue] with the arithmetic the program really uses,
    IEEE 754 binary64, so that the ledger and [state_probabilities] can
    be evaluated bit for bit.  [state_time] is kept in insertion order,
    as a Python dictionary is, and [float('inf')] is the float
    [infinity].  The statistics of lines 81-111, which do not feed the
    ledger, are left to the exact model. *)

Module Binary64.

Import Floats.

#[local] Set Warnings "-inexact-float".

(** State of [np.random]: the standard exponential variates to come. *)
Definition rng : Type := nat -> float.

Definition M (A : Type) : Type := rng -> outcome A * rng.

#[local] Instance M_ret : MRet M := fun A a g => (Returned a, g).
#[local] Instance M_bind : MBind M := fun A B k m g =>
  match m g with
  | (Returned a, g') => k a g'
  | (Raised e, g') => (Raised e, g')
  | (OutOfFuel, g') => (OutOfFuel, g')
  end.

Definition raise {A} (e : exn) : M A := fun g => (Raised e, g).
Definition out_of_fuel {A} : M A := fun g => (OutOfFuel, g).

(** [x / y] on Python floats. *)
Definition py_div (x y : float) : M float :=
  if (y =? 0)%float then raise ZeroDivisionError else mret (x / y)%float.

(** [np.random.exponential(scale)] *)
Definition np_random_exponential (scale : float) : M float := fun g =>
  if (scale <? 0)%float then (Raised ValueError, g)
  else (Returned (scale * g 0%nat)%float, fun k => g (S k)).

(** [np.random.exponential(scale=1.0/rate)] *)
Definition sample (rate : float) : M float :=
  scale ← py_div 1 rate; np_random_exponential scale.

Record customer : Type := Customer {
  arrival_time : float;
  service_start_time : float;
  departure_time : float
}.

Record sim_state : Type := SimState {
  current_time : float;
  server_busy : bool;
  server_start_time : float;
  next_departure_time : float;
  queue : list float;
  customer_stats : list customer;
  last_event_time : float;
  state_time : list (Z * float);
  current_state : Z;
  next_arrival_time : float
}.

(** [d.get(k, 0)] *)
Fixpoint dict_get (d : list (Z * float)) (k : Z) : float :=
  match d with
  | [] => 0%float
  | (n, t) :: d' => if (n =? k)%Z then t else dict_get d' k
  end.

(** [d[k] = v]: an existing key keeps its place, a new one goes last. *)
Fixpoint dict_set (d : list (Z * float)) (k : Z) (v : float)
    : list (Z * float) :=
  match d with
  | [] => [(k, v)]
  | (n, t) :: d' =>
    if (n =? k)%Z then (n, v) :: d' else (n, t) :: dict_set d' k v
  end.

(** [state_time[n] = state_time.get(n, 0) + dt] *)
Definition ledger_add (d : list (Z * float)) (n : Z) (dt : float)
    : list (Z * float) :=
  dict_set d n (dict_get d n + dt)%float.

(** [sum(d.values())] *)
Definition ledger_total (d : list (Z * float)) : float :=
  fold_left (fun acc nt => (acc + nt.2)%float) d 0%float.

Section Engine.

Variable seeded : Z -> rng.

Definition np_random_seed (s : Z) : M unit := fun g =>
  if valid_seed s then (Returned tt, seeded s) else (Raised ValueError, g).

Variables arrival_rate service_rate simulation_time : float.

(** Lines 11-24. *)
Definition initial_state (first_arrival : float) : sim_state :=
  {| current_time := 0;
     server_busy := false;
     server_start_time := 0;
     next_departure_time := infinity;
     queue := [];
     customer_stats := [];
     last_event_time := 0;
     state_time := [(0%Z, 0%float)];
     current_state := 0%Z;
     next_arrival_time := first_arrival |}.

(** Lines 30-52. *)
Definition process_arrival (st : sim_state) : M sim_state :=
  let ledger := ledger_add (state_time st) (current_state st)
                  (next_arrival_time st - last_event_time st)%float in
  let now := next_arrival_time st in
  gap ← sample arrival_rate;
  if server_busy st then
    mret {| current_time := now;
           server_busy := true;
           server_start_time := server_start_time st;
           next_departure_time := next_departure_time st;
           queue := queue st ++ [now];
           customer_stats := customer_stats st;
           last_event_time := now;
           state_time := ledger;
           current_state := (current_state st + 1)%Z;
           next_arrival_time := (now + gap)%float |}
  else
    service_time ← sample service_rate;
    mret {| current_time := now;
           server_busy := true;
           server_start_time := now;
           next_departure_time := (now + service_time)%float;
           queue := queue st;
           customer_stats :=
             customer_stats st
             ++ [Customer now now (now + service_time)%float];
           last_event_time := now;
           state_time := ledger;
           current_state := (current_state st + 1)%Z;
           next_arrival_time := (now + gap)%float |}.

(** Lines 55-75. *)
Definition process_departure (st : sim_state) : M sim_state :=
  let d := next_departure_time st in
  let ledger := ledger_add (state_time st) (current_state st)
                  (d - last_event_time st)%float in
  match queue st with
  | a :: waiting =>
    service_time ← sample service_rate;
    mret {| current_time := d;
           server_busy := server_busy st;
           server_start_time := d;
           next_departure_time := (d + service_time)%float;
           queue := waiting;
           customer_stats :=
             customer_stats st ++ [Customer a d (d + service_time)%float];
           last_event_time := d;
           state_time := ledger;
           current_state := (current_state st - 1)%Z;
           next_arrival_time := next_arrival_time st |}
  | [] =>
    mret {| current_time := d;
           server_busy := false;
           server_start_time := server_start_time st;
           next_departure_time := infinity;
           queue := [];
           customer_stats := customer_stats st;
           last_event_time := d;
           state_time := ledger;
           current_state := (current_state st - 1)%Z;
           next_arrival_time := next_arrival_time st |}
  end.

(** Line 29 and the loop body. *)
Definition iteration (st : sim_state) : M sim_state :=
  if (next_arrival_time st <=? next_departure_time st)%float
  then process_arrival st
  else process_departure st.

(** Line 27, cut off after [fuel] iterations. *)
Fixpoint event_loop (fuel : nat) (st : sim_state) : M sim_state :=
  if (current_time st <? simulation_time)%float then
    match fuel with
    | O => out_of_fuel
    | S fuel' => st' ← iteration st; event_loop fuel' st'
    end
  else mret st.

(** Line 78. *)
Definition final_update (st : sim_state) : sim_state :=
  {| current_time := current_time st;
     server_busy := server_busy st;
     server_start_time := server_start_time st;
     next_departure_time := next_departure_time st;
     queue := queue st;
     customer_stats := customer_stats st;
     last_event_time := last_event_time st;
     state_time := ledger_add (state_time st) (current_state st)
                     (simulation_time - last_event_time st)%float;
     current_state := current_state st;
     next_arrival_time := next_arrival_time st |}.

(** Lines 6-78. *)
Definition run_engine (seed : option Z) (fuel : nat) : M sim_state :=
  _ ← match seed with Some s => np_random_seed s | None => mret tt end;
  first_arrival ← sample arrival_rate;
  st ← event_loop fuel (initial_state first_arrival);
  mret (final_update st).

(** Line 114, reached only when the division of line 106 did not raise:
    the ledger after line 78 and [state_probabilities]. *)
Definition ledger_and_probabilities (seed : option Z) (fuel : nat)
    : M (list (Z * float) * list (Z * float)) :=
  st ← run_engine seed fuel;
  if (simulation_time =? 0)%float then raise ZeroDivisionError
  else mret (state_time st,
            map (fun nt => (nt.1, (nt.2 / simulation_time)%float))
                (state_time st)).

End Engine.

(** The first standard exponential variates numpy's legacy generator
    yields after [np.random.seed(42)]. *)
Definition seed42_variates : rng := fun k =>
  match k with
  | 0%nat => 0.4692680899768591
  | 1%nat => 3.010121430917521
  | 2%nat => 1.3167456935454493
  | _ => 1
  end%float.

(** [simulate_mm1_queue(1e-9, 1, 0.1, seed=42)] *)
Definition sparse_arrivals_run
    : outcome (list (Z * float) * list (Z * float)) * rng :=
  ledger_and_probabilities (fun _ => seed42_variates) 1e-9 1 0.1
    (Some 42%Z) 10 (fun _ => 1%float).

(** [simulate_mm1_queue(1e-17, 1, 1, seed=42)] *)
Definition sparser_arrivals_run
    : outcome (list (Z * float) * list (Z * float)) * rng :=
  ledger_and_probabilities (fun _ => seed42_variates) 1e-17 1 1
    (Some 42%Z) 10 (fun _ => 1%float).

End Binary64.
(** ** Reasoning about the monad *)

Lemma Qlt_bool_iff (x y : Q) : Qlt_bool x y = true <-> x < y.
Proof.
  unfold Qlt_bool. rewrite negb_true_iff.
  split.
  - intros H. apply Qnot_le_lt. intros Hle.
    apply Qle_bool_iff in Hle. congruence.
  - intros H. destruct (Qle_bool y x) eqn:E; [|reflexivity].
    apply Qle_bool_iff in E. lra.
Qed.

Lemma Qlt_bool_false_iff (x y : Q) : Qlt_bool x y = false <-> y <= x.
Proof.
  unfold Qlt_bool. rewrite negb_false_iff. apply Qle_bool_iff.
Qed.

Lemma bind_Returned {A B} (m : M A) (k : A -> M B) g b g' :
  (m ≫= k) g = (Returned b, g') ->
  exists a g1, m g = (Returned a, g1) /\ k a g1 = (Returned b, g').
Proof.
  unfold mbind, M_bind. destruct (m g) as [[a| e |] g1]; intros H.
  - exists a, g1. split; [reflexivity | exact H].
  - discriminate.
  - discriminate.
Qed.

Lemma ret_Returned {A} (a b : A) g g' :
  (mret a : M A) g = (Returned b, g') -> a = b /\ g = g'.
Proof. unfold mret, M_ret. intros H. inversion H. split; reflexivity. Qed.

Lemma py_div_Returned x y q g g' :
  py_div x y g = (Returned q, g') -> ~ y == 0 /\ q = x / y /\ g' = g.
Proof.
  unfold py_div. destruct (Qeq_bool y 0) eqn:E.
  - discriminate.
  - intros H. apply ret_Returned in H as [<- <-].
    split; [|split; reflexivity]. apply Qeq_bool_neq. exact E.
Qed.

Lemma np_random_exponential_Returned scale q g g' :
  np_random_exponential scale g = (Returned q, g') ->
  0 <= scale /\ q = scale * g 0%nat /\ g' = (fun k => g (S k)).
Proof.
  unfold np_random_exponential. destruct (Qlt_bool scale 0) eqn:E.
  - discriminate.
  - intros H. inversion H. apply Qlt_bool_false_iff in E.
    split; [exact E | split; reflexivity].
Qed.

(** A sample drawn for a rate: the rate was positive and the duration is
    the variate divided by the rate. *)
Lemma sample_Returned rate q g g' :
  sample rate g = (Returned q, g') ->
  0 < rate /\ q = (1 / rate) * g 0%nat /\ g' = (fun k => g (S k)).
Proof.
  unfold sample. intros H. apply bind_Returned in H as (scale & g1 & Hd & He).
  apply py_div_Returned in Hd as (Hnz & -> & ->).
  apply np_random_exponential_Returned in He as (Hs & -> & ->).
  split; [|split; reflexivity].
  destruct (Qlt_le_dec 0 rate) as [Hpos | Hneg]; [exact Hpos | exfalso].
  assert (Hlt : rate < 0) by (destruct (Qeq_dec rate 0); [contradiction | lra]).
  pose proof (Qmult_div_r 1 rate Hnz) as Hone.
  assert (Hle : rate * (1 / rate) <= 0) by nra.
  lra.
Qed.

(** ** Sums over the ledger *)

Section Ledger.

Variable w : Z -> Q.


Lemma weighted_sum_insert_fresh (d : gmap Z Q) n v :
  d !! n = None ->
  weighted_sum w (<[n := v]> d) == weighted_sum w d + w n * v.
Proof.
  intros Hn. unfold weighted_sum.
  apply (map_fold_insert Qeq (fun n t acc => acc + w n * t)); [| |exact Hn].
  - intros j z a b Hab. rewrite Hab. reflexivity.
  - intros. ring.
Qed.

Lemma weighted_sum_delete (d : gmap Z Q) n v :
  d !! n = Some v ->
  weighted_sum w d == weighted_sum w (delete n d) + w n * v.
Proof.
  intros Hn. unfold weighted_sum.
  apply (map_fold_delete Qeq (fun n t acc => acc + w n * t)); [| |exact Hn].
  - intros j z a b Hab. rewrite Hab. reflexivity.
  - intros. ring.
Qed.

Lemma weighted_sum_insert (d : gmap Z Q) n v :
  weighted_sum w (<[n := v]> d)
  == weighted_sum w d - w n * dict_get d n + w n * v.
Proof.
  unfold dict_get. destruct (d !! n) as [x|] eqn:Hn; simpl.
  - rewrite <- (insert_delete_eq d n v).
    rewrite weighted_sum_insert_fresh by apply lookup_delete_eq.
    rewrite (weighted_sum_delete d n x Hn). ring.
  - rewrite weighted_sum_insert_fresh by exact Hn. ring.
Qed.

Lemma weighted_sum_ledger_add (d : gmap Z Q) n dt :
  weighted_sum w (ledger_add d n dt) == weighted_sum w d + w n * dt.
Proof. unfold ledger_add. rewrite weighted_sum_insert. ring. Qed.

End Ledger.

Lemma ledger_total_add (d : gmap Z Q) n dt :
  ledger_total (ledger_add d n dt) == ledger_total d + dt.
Proof. unfold ledger_total. rewrite weighted_sum_ledger_add. ring. Qed.

Lemma ledger_total_singleton n v : ledger_total {[ n := v ]} == v.
Proof.
  unfold ledger_total, weighted_sum. rewrite map_fold_singleton. ring.
Qed.

(** Dividing every entry divides the total. *)
Lemma ledger_total_scaled (d : gmap Z Q) (h : Q) :
  ledger_total ((fun t => t / h) <$> d) == ledger_total d / h.
Proof.
  unfold ledger_total, weighted_sum.
  rewrite map_fold_fmap, !map_fold_foldr.
  induction (map_to_list d) as [|[n t] l IH]; simpl.
  - unfold Qdiv. ring.
  - rewrite IH. unfold Qdiv. ring.
Qed.

(** ** One iteration *)

Section Dispatch.

Variables arrival_rate service_rate simulation_time : Q.

Lemma next_event_Arrival st :
  next_event st = Arrival <->
  match next_departure_time st with
  | None => True
  | Some d => next_arrival_time st <= d
  end.
Proof.
  unfold next_event. destruct (next_departure_time st) as [d|]; [|tauto].
  destruct (Qle_bool (next_arrival_time st) d) eqn:E.
  - apply Qle_bool_iff in E. tauto.
  - split; [discriminate|]. intros H. apply Qle_bool_iff in H. congruence.
Qed.

Lemma next_event_Departure st d :
  next_event st = Departure d <->
  next_departure_time st = Some d /\ d < next_arrival_time st.
Proof.
  unfold next_event. destruct (next_departure_time st) as [d'|].
  - destruct (Qle_bool (next_arrival_time st) d') eqn:E.
    + apply Qle_bool_iff in E. split; [discriminate|].
      intros [H Hlt]. inversion H; subst. lra.
    + assert (Hlt : d' < next_arrival_time st).
      { apply Qnot_le_lt. intros H. apply Qle_bool_iff in H. congruence. }
      split.
      * intros H. inversion H; subst. split; [reflexivity | exact Hlt].
      * intros [H _]. inversion H; subst. reflexivity.
  - split; [discriminate|]. intros [H _]. discriminate.
Qed.

Lemma process_arrival_Returned st g st' g' :
  process_arrival arrival_rate service_rate st g = (Returned st', g') ->
  let now := next_arrival_time st in
  let ledger := ledger_add (state_time st) (current_state st)
                  (now - last_event_time st) in
  let gap := 1 / arrival_rate * g 0%nat in
  0 < arrival_rate /\
  if server_busy st then
    g' = (fun k => g (S k)) /\
    st' = SimState now true (server_start_time st) (next_departure_time st)
            (queue st ++ [now]) (customer_stats st) now ledger
            (current_state st + 1)%Z (now + gap)
  else
    let service_time := 1 / service_rate * g 1%nat in
    0 < service_rate /\
    g' = (fun k => g (S (S k))) /\
    st' = SimState now true now (Some (now + service_time)) (queue st)
            (customer_stats st ++ [Customer now now (now + service_time)])
            now ledger (current_state st + 1)%Z (now + gap).
Proof.
  unfold process_arrival. intros H.
  apply bind_Returned in H as (gap & g1 & Hgap & H).
  apply sample_Returned in Hgap as (Hrate & -> & ->).
  split; [exact Hrate|].
  destruct (server_busy st).
  - apply ret_Returned in H as [<- <-]. split; reflexivity.
  - apply bind_Returned in H as (s & g2 & Hs & H).
    apply sample_Returned in Hs as (Hmu & -> & ->).
    apply ret_Returned in H as [<- <-].
    split; [exact Hmu | split; reflexivity].
Qed.

Lemma process_departure_Returned d st g st' g' :
  process_departure service_rate d st g = (Returned st', g') ->
  let ledger := ledger_add (state_time st) (current_state st)
                  (d - last_event_time st) in
  match queue st with
  | a :: waiting =>
    let service_time := 1 / service_rate * g 0%nat in
    0 < service_rate /\
    g' = (fun k => g (S k)) /\
    st' = SimState d (server_busy st) d (Some (d + service_time)) waiting
            (customer_stats st ++ [Customer a d (d + service_time)])
            d ledger (current_state st - 1)%Z (next_arrival_time st)
  | [] =>
    g' = g /\
    st' = SimState d false (server_start_time st) None []
            (customer_stats st) d ledger (current_state st - 1)%Z
            (next_arrival_time st)
  end.
Proof.
  unfold process_departure. intros H. destruct (queue st) as [|a waiting].
  - apply ret_Returned in H as [<- <-]. split; reflexivity.
  - apply bind_Returned in H as (s & g1 & Hs & H).
    apply sample_Returned in Hs as (Hmu & -> & ->).
    apply ret_Returned in H as [<- <-].
    split; [exact Hmu | split; reflexivity].
Qed.

End Dispatch.

(** Case analysis of a successful iteration: names the event, rewrites
    the new state into its explicit form and leaves one goal per branch
    of the source. *)
Ltac iteration_cases H :=
  unfold iteration in H;
  let Hev := fresh "Hev" in
  let d := fresh "d" in
  destruct (next_event _) as [|d] eqn:Hev;
  [ apply process_arrival_Returned in H; cbv zeta in H;
    let Hrate := fresh "Hrate" in
    destruct H as [Hrate H];
    let Hbusy := fresh "Hbusy" in
    destruct (server_busy _) eqn:Hbusy;
    [ destruct H as [-> ->]
    | let Hmu := fresh "Hmu" in destruct H as (Hmu & -> & ->) ]
  | apply process_departure_Returned in H; cbv zeta in H;
    let Hq := fresh "Hq" in
    let a := fresh "a" in
    let waiting := fresh "waiting" in
    destruct (queue _) as [|a waiting] eqn:Hq;
    [ destruct H as [-> ->]
    | let Hmu := fresh "Hmu" in destruct H as (Hmu & -> & ->) ] ].

Section Steps.

Variables arrival_rate service_rate simulation_time : Q.

Lemma pending_departure_busy st d :
  engine_inv st -> next_departure_time st = Some d -> server_busy st = true.
Proof.
  intros [_ Hi _ _] Hnd. destruct (server_busy st); [reflexivity|].
  destruct Hi as [Hi _]. rewrite (Hi eq_refl) in Hnd. discriminate.
Qed.

Lemma iteration_engine_inv st g st' g' :
  engine_inv st ->
  iteration arrival_rate service_rate st g = (Returned st', g') ->
  engine_inv st'.
Proof.
  intros Hinv H. pose proof Hinv as [Hl Hi Hline Hc]. iteration_cases H.
  - (* arrival, server busy *)
    constructor; simpl.
    + rewrite ledger_total_add, Hl. ring.
    + split; [discriminate|]. intros Hnd. apply Hi in Hnd. congruence.
    + discriminate.
    + rewrite Hc, length_app. simpl. lia.
  - (* arrival, server idle *)
    constructor; simpl.
    + rewrite ledger_total_add, Hl. ring.
    + split; discriminate.
    + discriminate.
    + rewrite Hc, (Hline eq_refl). simpl. lia.
  - (* departure, empty line *)
    constructor; simpl.
    + rewrite ledger_total_add, Hl. ring.
    + tauto.
    + reflexivity.
    + apply next_event_Departure in Hev as [Hnd _].
      rewrite Hc, (pending_departure_busy st d Hinv Hnd). simpl. lia.
  - (* departure, next customer starts *)
    apply next_event_Departure in Hev as [Hnd _].
    pose proof (pending_departure_busy st d Hinv Hnd) as Hb.
    constructor; simpl.
    + rewrite ledger_total_add, Hl. ring.
    + rewrite Hb. split; discriminate.
    + rewrite Hb. discriminate.
    + rewrite Hc, Hb. simpl length. lia.
Qed.

Lemma initial_engine_inv first_arrival : engine_inv (initial_state first_arrival).
Proof.
  constructor; simpl.
  - apply ledger_total_singleton.
  - tauto.
  - reflexivity.
  - reflexivity.
Qed.

Lemma reachable_engine_inv st :
  reachable arrival_rate service_rate simulation_time st -> engine_inv st.
Proof.
  induction 1 as [first|st g st' g' _ IH _ Hstep].
  - apply initial_engine_inv.
  - exact (iteration_engine_inv st g st' g' IH Hstep).
Qed.

Lemma late_completed c :
  late simulation_time c = false <-> departure_time c <= simulation_time.
Proof.
  unfold late, completed. rewrite negb_false_iff. apply Qle_bool_iff.
Qed.

Lemma filter_late_snoc served c :
  List.filter (late simulation_time) served = [] ->
  (length (List.filter (late simulation_time) (served ++ [c])) <= 1)%nat /\
  (departure_time c <= simulation_time ->
   List.filter (late simulation_time) (served ++ [c]) = []).
Proof.
  intros Hs. rewrite List.filter_app, Hs. simpl.
  destruct (late simulation_time c) eqn:E; simpl.
  - split; [lia|]. intros H. apply late_completed in H. congruence.
  - split; [lia | reflexivity].
Qed.

Lemma iteration_records_inv st g st' g' :
  engine_inv st ->
  records_inv simulation_time st ->
  current_time st < simulation_time ->
  iteration arrival_rate service_rate st g = (Returned st', g') ->
  records_inv simulation_time st'.
Proof.
  intros Hinv (served & pending & Hstats & Hpend & _ & Hnone) Hguard H.
  specialize (Hnone Hguard).
  iteration_cases H.
  - (* arrival, server busy: the records are untouched *)
    exists served, pending. simpl.
    split; [exact Hstats|]. split; [exact Hpend|].
    rewrite Hnone. split; [simpl; lia | reflexivity].
  - (* arrival, server idle: the newcomer is the pending record *)
    subst pending. rewrite app_nil_r in Hstats.
    eexists served, [_]. simpl.
    split; [rewrite Hstats; reflexivity|].
    split; [eexists; split; [reflexivity | split; reflexivity]|].
    rewrite Hnone. split; [simpl; lia | reflexivity].
  - (* departure, empty line: the pending record becomes served *)
    apply next_event_Departure in Hev as [Hnd _].
    rewrite (pending_departure_busy st d Hinv Hnd) in Hpend.
    destruct Hpend as (c & -> & Hc & _).
    rewrite Hnd in Hc. inversion Hc as [Hd].
    exists (served ++ [c]), []. simpl.
    split; [rewrite app_nil_r; exact Hstats|]. split; [reflexivity|].
    destruct (filter_late_snoc served c Hnone) as [Hle Hin].
    split; [exact Hle|]. intros Hlt. apply Hin. subst d. lra.
  - (* departure, next customer starts *)
    apply next_event_Departure in Hev as [Hnd _].
    pose proof (pending_departure_busy st d Hinv Hnd) as Hb.
    rewrite Hb in Hpend. destruct Hpend as (c & -> & Hc & _).
    rewrite Hnd in Hc. inversion Hc as [Hd].
    eexists (served ++ [c]), [_]. simpl.
    split; [rewrite Hstats; reflexivity|].
    rewrite Hb.
    split; [eexists; split; [reflexivity | split; reflexivity]|].
    destruct (filter_late_snoc served c Hnone) as [Hle Hin].
    split; [exact Hle|]. intros Hlt. apply Hin. subst d. lra.
Qed.

Lemma initial_records_inv first_arrival :
  records_inv simulation_time (initial_state first_arrival).
Proof.
  exists [], []. simpl.
  split; [reflexivity|]. split; [reflexivity|]. split; [lia | reflexivity].
Qed.

Lemma reachable_records_inv st :
  reachable arrival_rate service_rate simulation_time st ->
  records_inv simulation_time st.
Proof.
  induction 1 as [first|st g st' g' Hreach IH Hguard Hstep].
  - apply initial_records_inv.
  - apply (iteration_records_inv st g st' g'); try assumption.
    apply reachable_engine_inv. exact Hreach.
Qed.

Lemma duration_nonneg rate x : 0 < rate -> 0 <= x -> 0 <= 1 / rate * x.
Proof.
  intros Hr Hx. apply Qmult_le_0_compat; [|exact Hx].
  unfold Qdiv. rewrite Qmult_1_l. apply Qinv_le_0_compat. lra.
Qed.

Lemma nonneg_tail g : nonneg g -> nonneg (fun k => g (S k)).
Proof. intros H k. apply H. Qed.

Lemma iteration_time_inv st g st' g' :
  nonneg g ->
  time_inv st ->
  iteration arrival_rate service_rate st g = (Returned st', g') ->
  time_inv st' /\ nonneg g'.
Proof.
  intros Hg [Hna Hnd Hline Hrec] H. iteration_cases H.
  - (* arrival, server busy *)
    pose proof (duration_nonneg arrival_rate (g 0%nat) Hrate (Hg 0%nat)).
    apply next_event_Arrival in Hev.
    split; [|apply nonneg_tail; exact Hg].
    constructor; simpl.
    + lra.
    + intros d Hd. rewrite Hd in Hev. exact Hev.
    + apply Forall_app. split.
      * eapply Forall_impl; [exact Hline|]. simpl. intros a Ha. lra.
      * apply Forall_singleton. lra.
    + exact Hrec.
  - (* arrival, server idle *)
    pose proof (duration_nonneg arrival_rate (g 0%nat) Hrate (Hg 0%nat)).
    pose proof (duration_nonneg service_rate (g 1%nat) Hmu (Hg 1%nat)).
    split; [|intros k; apply Hg].
    constructor; simpl.
    + lra.
    + intros d Hd. inversion Hd; subst. lra.
    + eapply Forall_impl; [exact Hline|]. simpl. intros a Ha. lra.
    + apply Forall_app. split; [exact Hrec|].
      apply Forall_singleton. unfold well_timed. simpl. lra.
  - (* departure, empty line *)
    apply next_event_Departure in Hev as [Hd Hlt].
    split; [|exact Hg].
    constructor; simpl.
    + lra.
    + discriminate.
    + constructor.
    + exact Hrec.
  - (* departure, next customer starts *)
    pose proof (duration_nonneg service_rate (g 0%nat) Hmu (Hg 0%nat)).
    apply next_event_Departure in Hev as [Hd Hlt].
    specialize (Hnd d Hd).
    apply Forall_cons in Hline as [Ha Hline].
    split; [|apply nonneg_tail; exact Hg].
    constructor; simpl.
    + lra.
    + intros d' Hd'. inversion Hd'; subst. lra.
    + eapply Forall_impl; [exact Hline|]. simpl. intros b Hb. lra.
    + apply Forall_app. split; [exact Hrec|].
      apply Forall_singleton. unfold well_timed. simpl. lra.
Qed.

Lemma initial_time_inv first_arrival :
  0 <= first_arrival -> time_inv (initial_state first_arrival).
Proof.
  intros H. constructor; simpl.
  - exact H.
  - discriminate.
  - constructor.
  - constructor.
Qed.

(** ** The loop *)

Lemma event_loop_Returned (P : sim_state -> rng -> Prop) :
  (forall st g st' g',
     P st g -> current_time st < simulation_time ->
     iteration arrival_rate service_rate st g = (Returned st', g') ->
     P st' g') ->
  forall fuel st g st' g',
    P st g ->
    event_loop arrival_rate service_rate simulation_time fuel st g
    = (Returned st', g') ->
    P st' g' /\ simulation_time <= current_time st'.
Proof.
  intros Hstep fuel. induction fuel as [|fuel IH]; intros st g st' g' HP H.
  - simpl in H.
    destruct (Qlt_bool (current_time st) simulation_time) eqn:E.
    + discriminate.
    + apply ret_Returned in H as [<- <-].
      split; [exact HP | apply Qlt_bool_false_iff; exact E].
  - simpl in H.
    destruct (Qlt_bool (current_time st) simulation_time) eqn:E.
    + apply bind_Returned in H as (st1 & g1 & Hit & Hloop).
      apply Qlt_bool_iff in E.
      apply (IH st1 g1); [|exact Hloop]. exact (Hstep st g st1 g1 HP E Hit).
    + apply ret_Returned in H as [<- <-].
      split; [exact HP | apply Qlt_bool_false_iff; exact E].
Qed.

Lemma event_loop_reachable fuel st g st' g' :
  reachable arrival_rate service_rate simulation_time st ->
  event_loop arrival_rate service_rate simulation_time fuel st g
  = (Returned st', g') ->
  reachable arrival_rate service_rate simulation_time st' /\
  simulation_time <= current_time st'.
Proof.
  apply (event_loop_Returned
           (fun st _ => reachable arrival_rate service_rate simulation_time st)).
  intros s h s' h' Hreach Hguard Hit.
  exact (reachable_step _ _ _ s h s' h' Hreach Hguard Hit).
Qed.

End Steps.

(** ** Whole runs *)

Section RunLemmas.

Variable seeded : Z -> rng.
Variables arrival_rate service_rate simulation_time : Q.

Lemma run_engine_Returned seed fuel g st' g' :
  run_engine seeded arrival_rate service_rate simulation_time seed fuel g
  = (Returned st', g') ->
  let g0 := start_rng seeded seed g in
  0 < arrival_rate /\
  exists st,
    event_loop arrival_rate service_rate simulation_time fuel
      (initial_state (1 / arrival_rate * g0 0%nat)) (fun k => g0 (S k))
    = (Returned st, g') /\
    st' = final_update simulation_time st.
Proof.
  unfold run_engine. intros H.
  apply bind_Returned in H as ([] & g0 & Hseed & H).
  assert (Hg0 : g0 = start_rng seeded seed g).
  { destruct seed as [s|]; simpl in *.
    - unfold np_random_seed in Hseed.
      destruct (valid_seed s); inversion Hseed. reflexivity.
    - apply ret_Returned in Hseed as [_ <-]. reflexivity. }
  subst g0.
  apply bind_Returned in H as (first & g1 & Hfirst & H).
  apply sample_Returned in Hfirst as (Hrate & -> & ->).
  apply bind_Returned in H as (st & g2 & Hloop & H).
  apply ret_Returned in H as [<- <-].
  simpl. split; [exact Hrate|]. exists st. split; [exact Hloop | reflexivity].
Qed.

Lemma run_engine_reachable seed fuel g st' g' :
  run_engine seeded arrival_rate service_rate simulation_time seed fuel g
  = (Returned st', g') ->
  exists st,
    reachable arrival_rate service_rate simulation_time st /\
    simulation_time <= current_time st /\
    st' = final_update simulation_time st.
Proof.
  intros H. apply run_engine_Returned in H as (_ & st & Hloop & ->).
  exists st. apply event_loop_reachable in Hloop as [Hreach Hstop].
  - split; [exact Hreach | split; [exact Hstop | reflexivity]].
  - apply reachable_init.
Qed.

Lemma statistics_Returned st g r g' :
  statistics simulation_time st g = (Returned r, g') ->
  ~ simulation_time == 0 /\
  g' = g /\
  total_customers r = length (customer_stats st) /\
  completed_customers r
  = length (List.filter (completed simulation_time) (customer_stats st)) /\
  server_busy_time r = busy_time simulation_time st /\
  server_utilization r = busy_time simulation_time st / simulation_time /\
  state_probabilities r
  = (fun t => t / simulation_time) <$> state_time st.
Proof.
  unfold statistics. intros H.
  apply bind_Returned in H as (u & g1 & Hu & H).
  apply py_div_Returned in Hu as (Hnz & -> & ->).
  apply bind_Returned in H as (l & g2 & Hl & H).
  apply py_div_Returned in Hl as (_ & -> & ->).
  apply bind_Returned in H as (lq & g3 & Hlq & H).
  apply py_div_Returned in Hlq as (_ & -> & ->).
  apply ret_Returned in H as [<- <-]. simpl.
  repeat split; try reflexivity. exact Hnz.
Qed.

Lemma simulate_Returned seed fuel g r g' :
  simulate_mm1_queue seeded arrival_rate service_rate simulation_time
    seed fuel g = (Returned r, g') ->
  exists st,
    run_engine seeded arrival_rate service_rate simulation_time seed fuel g
    = (Returned st, g') /\
    statistics simulation_time st g' = (Returned r, g').
Proof.
  unfold simulate_mm1_queue. intros H.
  apply bind_Returned in H as (st & g1 & Hrun & Hstat).
  pose proof (statistics_Returned _ _ _ _ Hstat) as (_ & -> & _).
  exists st. split; assumption.
Qed.

(** *** More fuel does not change a run that ended *)

Lemma event_loop_fuel_mono fuel extra st g :
  finished (event_loop arrival_rate service_rate simulation_time fuel st g) ->
  event_loop arrival_rate service_rate simulation_time (fuel + extra) st g
  = event_loop arrival_rate service_rate simulation_time fuel st g.
Proof.
  revert st g. induction fuel as [|fuel IH]; intros st g Hfin.
  - simpl in *. destruct (Qlt_bool (current_time st) simulation_time) eqn:E.
    + exfalso. apply Hfin. reflexivity.
    + destruct extra; simpl; rewrite E; reflexivity.
  - simpl in *. destruct (Qlt_bool (current_time st) simulation_time) eqn:E;
      [|reflexivity].
    unfold mbind, M_bind in *.
    destruct (iteration arrival_rate service_rate st g) as [[st1|e|] g1];
      [apply IH; exact Hfin | reflexivity | reflexivity].
Qed.

Lemma simulate_fuel_mono seed fuel extra g :
  finished (simulate_mm1_queue seeded arrival_rate service_rate
              simulation_time seed fuel g) ->
  simulate_mm1_queue seeded arrival_rate service_rate simulation_time
    seed (fuel + extra) g
  = simulate_mm1_queue seeded arrival_rate service_rate simulation_time
      seed fuel g.
Proof.
  unfold simulate_mm1_queue, run_engine, finished, mbind, M_bind.
  destruct (match seed with Some s => np_random_seed seeded s | None => mret tt end g)
    as [[[]|e|] g0]; [|reflexivity|reflexivity].
  destruct (sample arrival_rate g0) as [[first|e|] g1];
    [|reflexivity|reflexivity].
  intros Hfin.
  rewrite event_loop_fuel_mono; [reflexivity|].
  unfold finished.
  destruct (event_loop arrival_rate service_rate simulation_time fuel
              (initial_state first) g1) as [[st|e|] g2]; simpl in *;
    [discriminate | discriminate | exfalso; apply Hfin; reflexivity].
Qed.

End RunLemmas.

(** ** Properties of the engine *)

Section Properties.

Variable seeded : Z -> rng.
Variables arrival_rate service_rate simulation_time : Q.

Lemma final_ledger_total st :
  engine_inv st ->
  ledger_total (state_time (final_update simulation_time st))
  == simulation_time.
Proof.
  intros [Hl _ _ _]. simpl. rewrite ledger_total_add, Hl. ring.
Qed.

(** In exact arithmetic, whenever a run returns, the entries of the
    state-time ledger after the final update add up to the horizon and
    the values of [state_probabilities] add up to 1: this is what the
    final update of line 78 is there for.  No assumption on the rates,
    the horizon or the samples is needed.  The statement is about
    rationals only; what binary64 makes of it is evaluated at the end
    of the file. *)
Lemma exact_ledger_sums_to_horizon seed fuel g r g' :
  simulate_mm1_queue seeded arrival_rate service_rate simulation_time
    seed fuel g = (Returned r, g') ->
  exists st,
    run_engine seeded arrival_rate service_rate simulation_time seed fuel g
    = (Returned st, g') /\
    ledger_total (state_time st) == simulation_time /\
    ledger_total (state_probabilities r) == 1.
Proof.
  intros H. apply simulate_Returned in H as (st & Hrun & Hstat).
  exists st. split; [exact Hrun|].
  apply run_engine_reachable in Hrun as (st0 & Hreach & _ & ->).
  apply reachable_engine_inv in Hreach.
  pose proof (final_ledger_total st0 Hreach) as Hsum.
  apply statistics_Returned in Hstat as (Hnz & _ & _ & _ & _ & _ & Hprob).
  split; [exact Hsum|].
  rewrite Hprob, ledger_total_scaled, Hsum. field. exact Hnz.
Qed.

(** Each population count of the ledger is reported with its time
    divided by the horizon, and no other count is reported. *)
Lemma state_probabilities_lookup seed fuel g r g' n :
  simulate_mm1_queue seeded arrival_rate service_rate simulation_time
    seed fuel g = (Returned r, g') ->
  exists st,
    run_engine seeded arrival_rate service_rate simulation_time seed fuel g
    = (Returned st, g') /\
    state_probabilities r !! n
    = (fun t => t / simulation_time) <$> (state_time st !! n).
Proof.
  intros H. apply simulate_Returned in H as (st & Hrun & Hstat).
  exists st. split; [exact Hrun|].
  apply statistics_Returned in Hstat as (_ & _ & _ & _ & _ & _ & ->).
  apply lookup_fmap.
Qed.

(** C5. The loop body dispatches on [next_event]: on exact equality of
    the two scheduled times the arrival branch runs, an arrival is the
    event exactly when [next_arrival_time <= next_departure_time]
    (always, when no departure is pending), and the departure branch
    runs exactly when the pending departure is strictly earlier than the
    next arrival. *)
Theorem arrival_wins_ties st :
  (forall d,
     next_departure_time st = Some d -> next_arrival_time st == d ->
     iteration arrival_rate service_rate st
     = process_arrival arrival_rate service_rate st) /\
  (iteration arrival_rate service_rate st
   = match next_event st with
     | Arrival => process_arrival arrival_rate service_rate st
     | Departure d => process_departure service_rate d st
     end) /\
  (next_event st = Arrival <->
   match next_departure_time st with
   | None => True
   | Some d => next_arrival_time st <= d
   end) /\
  (forall d,
     next_event st = Departure d <->
     next_departure_time st = Some d /\ d < next_arrival_time st).
Proof.
  split; [|split; [reflexivity | split]].
  - intros d Hd Heq. unfold iteration.
    assert (Hev : next_event st = Arrival).
    { apply next_event_Arrival. rewrite Hd. lra. }
    rewrite Hev. reflexivity.
  - apply next_event_Arrival.
  - apply next_event_Departure.
Qed.

(** A seeded run does not look at the generator state it starts in. *)
Lemma seed_resets s fuel g1 g2 :
  (simulate_mm1_queue seeded arrival_rate service_rate simulation_time
     (Some s) fuel g1).1
  = (simulate_mm1_queue seeded arrival_rate service_rate simulation_time
       (Some s) fuel g2).1.
Proof.
  unfold simulate_mm1_queue, run_engine, mbind, M_bind, np_random_seed.
  destruct (valid_seed s); reflexivity.
Qed.

(** C6. Two invocations with the same rates, horizon and seed (not
    [None]) that both end, whatever the state of the global generator
    before each and however many iterations each is allowed, end the
    same way: the same result record, field for field, or the same
    exception. *)
Theorem seeded_runs_agree s fuel1 fuel2 g1 g2 :
  finished (simulate_mm1_queue seeded arrival_rate service_rate
              simulation_time (Some s) fuel1 g1) ->
  finished (simulate_mm1_queue seeded arrival_rate service_rate
              simulation_time (Some s) fuel2 g2) ->
  (simulate_mm1_queue seeded arrival_rate service_rate simulation_time
     (Some s) fuel1 g1).1
  = (simulate_mm1_queue seeded arrival_rate service_rate simulation_time
       (Some s) fuel2 g2).1.
Proof.
  intros H1 H2.
  rewrite <- (simulate_fuel_mono seeded _ _ _ (Some s) fuel1 fuel2 g1 H1).
  rewrite <- (simulate_fuel_mono seeded _ _ _ (Some s) fuel2 fuel1 g2 H2).
  rewrite (Nat.add_comm fuel2 fuel1). apply seed_resets.
Qed.

(** C7. The population count is 0 in the initial state; every iteration
    that completes changes it by exactly +1 when the event is an arrival
    and by exactly -1 when it is a departure, and leaves it
    non-negative. *)
Theorem population_count_steps :
  (forall first_arrival,
     current_state (initial_state first_arrival) = 0%Z) /\
  (forall st g st' g',
     reachable arrival_rate service_rate simulation_time st ->
     iteration arrival_rate service_rate st g = (Returned st', g') ->
     current_state st'
     = match next_event st with
       | Arrival => (current_state st + 1)%Z
       | Departure _ => (current_state st - 1)%Z
       end /\
     (0 <= current_state st')%Z).
Proof.
  split; [reflexivity|].
  intros st g st' g' Hreach H. split.
  - iteration_cases H; reflexivity.
  - apply reachable_engine_inv in Hreach.
    pose proof (iteration_engine_inv _ _ st g st' g' Hreach H) as [_ _ _ Hc].
    rewrite Hc. destruct (server_busy st'); lia.
Qed.

(** C8. In the initial state and after every completed iteration,
    [next_departure_time] is infinite exactly when the server is idle
    and the waiting line is empty. *)
Theorem no_departure_iff_idle_and_empty st :
  reachable arrival_rate service_rate simulation_time st ->
  (next_departure_time st = None <->
   server_busy st = false /\ queue st = []).
Proof.
  intros Hreach. apply reachable_engine_inv in Hreach as [_ Hi Hline _].
  split.
  - intros Hnd. apply Hi in Hnd. split; [exact Hnd | exact (Hline Hnd)].
  - intros [Hb _]. apply Hi. exact Hb.
Qed.

Lemma run_time_inv seed fuel g st g' :
  nonneg (start_rng seeded seed g) ->
  run_engine seeded arrival_rate service_rate simulation_time seed fuel g
  = (Returned st, g') ->
  exists st0, time_inv st0 /\ st = final_update simulation_time st0.
Proof.
  intros Hg H. apply run_engine_Returned in H as (Hrate & st0 & Hloop & ->).
  exists st0. split; [|reflexivity].
  apply (event_loop_Returned arrival_rate service_rate simulation_time
           (fun st g => time_inv st /\ nonneg g)) in Hloop as [[Hinv _] _].
  - exact Hinv.
  - intros s h s' h' [Hs Hh] _ Hit.
    exact (iteration_time_inv _ _ s h s' h' Hh Hs Hit).
  - split.
    + apply initial_time_inv. apply duration_nonneg; [exact Hrate | apply Hg].
    + apply nonneg_tail. exact Hg.
Qed.

(** C9. When the generator yields non-negative variates, every record a
    run leaves in [customer_stats] whose departure is within the horizon
    has [queue_time = service_start_time - arrival_time >= 0] and
    [system_time = departure_time - arrival_time >= queue_time]; that
    is, [arrival_time <= service_start_time <= departure_time]. *)
Theorem completed_records_ordered seed fuel g st g' c :
  nonneg (start_rng seeded seed g) ->
  run_engine seeded arrival_rate service_rate simulation_time seed fuel g
  = (Returned st, g') ->
  c ∈ customer_stats st ->
  completed simulation_time c = true ->
  let queue_time := service_start_time c - arrival_time c in
  let system_time := departure_time c - arrival_time c in
  0 <= queue_time /\ queue_time <= system_time /\
  arrival_time c <= service_start_time c /\
  service_start_time c <= departure_time c.
Proof.
  intros Hg H Hin _. apply (run_time_inv seed fuel g st g' Hg) in H.
  destruct H as (st0 & [_ _ _ Hrec] & ->). simpl in Hin.
  rewrite Forall_forall in Hrec. destruct (Hrec c Hin) as [H1 H2].
  simpl. lra.
Qed.

Lemma length_completed_late l :
  length l
  = (length (List.filter (completed simulation_time) l)
     + length (List.filter (late simulation_time) l))%nat.
Proof.
  induction l as [|c l IH]; [reflexivity|].
  simpl. unfold late at 1.
  destruct (completed simulation_time c); simpl; lia.
Qed.

(** C10. In every run that returns, [completed_customers <=
    total_customers <= completed_customers + 2]: at most two records
    have a departure beyond the horizon, the one whose departure was
    the last event processed and the one still in service. *)
Theorem tail_customers_bounded seed fuel g r g' :
  simulate_mm1_queue seeded arrival_rate service_rate simulation_time
    seed fuel g = (Returned r, g') ->
  (completed_customers r <= total_customers r)%nat /\
  (total_customers r <= completed_customers r + 2)%nat.
Proof.
  intros H. apply simulate_Returned in H as (st & Hrun & Hstat).
  apply statistics_Returned in Hstat as (_ & _ & -> & -> & _).
  apply run_engine_reachable in Hrun as (st0 & Hreach & _ & ->). simpl.
  apply reachable_records_inv in Hreach
    as (served & pending & Hstats & Hpend & Hle & _).
  rewrite (length_completed_late (customer_stats st0)).
  split; [lia|].
  assert (Hp : (length (List.filter (late simulation_time) pending) <= 1)%nat).
  { destruct (server_busy st0).
    - destruct Hpend as (c & -> & _). simpl.
      destruct (late simulation_time c); simpl; lia.
    - subst pending. simpl. lia. }
  rewrite Hstats at 2. rewrite List.filter_app, length_app. lia.
Qed.

End Properties.

(** ** The busy time never exceeds the horizon *)

Section Utilization.

Variable seeded : Z -> rng.
Variables arrival_rate service_rate simulation_time : Q.

Lemma sequential_snoc t l c :
  sequential t l ->
  last_departure t l <= service_start_time c ->
  service_start_time c <= departure_time c ->
  sequential t (l ++ [c]).
Proof.
  revert t. induction l as [|c0 l IH]; intros t Hseq Hlast Hc; simpl in *.
  - tauto.
  - destruct Hseq as (H1 & H2 & H3).
    split; [exact H1|]. split; [exact H2|]. apply IH; assumption.
Qed.

Lemma last_departure_snoc t l c :
  last_departure t (l ++ [c]) = departure_time c.
Proof. unfold last_departure. rewrite fold_left_app. reflexivity. Qed.

Lemma busy_fold_shift l a :
  fold_left (fun acc c => acc + (departure_time c - service_start_time c)) l a
  == a + fold_left (fun acc c => acc + (departure_time c - service_start_time c))
           l 0.
Proof.
  revert a. induction l as [|c l IH]; intros a; simpl.
  - ring.
  - rewrite IH, (IH (0 + _)). ring.
Qed.

Lemma served_time_cons c l :
  served_time simulation_time (c :: l)
  == (if completed simulation_time c
      then departure_time c - service_start_time c else 0)
     + served_time simulation_time l.
Proof.
  unfold served_time. simpl.
  destruct (completed simulation_time c); simpl.
  - rewrite busy_fold_shift. ring.
  - ring.
Qed.

Lemma served_time_beyond_horizon t l :
  sequential t l -> simulation_time < t ->
  served_time simulation_time l == 0.
Proof.
  revert t. induction l as [|c l IH]; intros t Hseq Ht.
  - reflexivity.
  - destruct Hseq as (H1 & H2 & H3).
    rewrite served_time_cons, (IH (departure_time c) H3) by lra.
    destruct (completed simulation_time c) eqn:E; [|ring].
    apply Qle_bool_iff in E. lra.
Qed.

(** Completed service periods fit between [t] and the horizon. *)
Lemma served_time_within_horizon t l :
  sequential t l -> t <= simulation_time ->
  served_time simulation_time l <= simulation_time - t.
Proof.
  revert t. induction l as [|c l IH]; intros t Hseq Ht.
  - unfold served_time. simpl. lra.
  - destruct Hseq as (H1 & H2 & H3). rewrite served_time_cons.
    destruct (completed simulation_time c) eqn:E.
    + apply Qle_bool_iff in E.
      pose proof (IH (departure_time c) H3 E). lra.
    + assert (Hlate : simulation_time < departure_time c).
      { apply Qnot_le_lt. intros H. apply Qle_bool_iff in H.
        unfold completed in E. congruence. }
      rewrite (served_time_beyond_horizon (departure_time c) l H3 Hlate).
      lra.
Qed.

(** Service periods that precede the record in service fit before its
    start. *)
Lemma served_time_before_pending t l c :
  sequential t (l ++ [c]) ->
  served_time simulation_time l <= service_start_time c - t.
Proof.
  revert t. induction l as [|c0 l IH]; intros t Hseq.
  - destruct Hseq as (H1 & _). unfold served_time. simpl. lra.
  - destruct Hseq as (H1 & H2 & H3). rewrite served_time_cons.
    pose proof (IH (departure_time c0) H3).
    destruct (completed simulation_time c0); lra.
Qed.

Lemma served_time_snoc_late l c :
  completed simulation_time c = false ->
  served_time simulation_time (l ++ [c]) = served_time simulation_time l.
Proof.
  intros E. unfold served_time. rewrite List.filter_app. simpl.
  rewrite E, app_nil_r. reflexivity.
Qed.

Lemma initial_service_inv first_arrival :
  service_inv (initial_state first_arrival).
Proof. split; simpl; [exact I | unfold last_departure; simpl; lra]. Qed.

Lemma iteration_service_inv st g st' g' :
  nonneg g ->
  engine_inv st ->
  time_inv st ->
  service_inv st ->
  iteration arrival_rate service_rate st g = (Returned st', g') ->
  service_inv st'.
Proof.
  intros Hg Hinv [Hna Hnd _ _] [Hseq Hlast] H. iteration_cases H.
  - (* arrival, server busy *)
    split; simpl; [exact Hseq | exact Hlast].
  - (* arrival, server idle *)
    pose proof (duration_nonneg service_rate (g 1%nat) Hmu (Hg 1%nat)).
    split; simpl.
    + apply sequential_snoc; simpl; [exact Hseq | lra | lra].
    + eexists _, _. split; [reflexivity | split; reflexivity].
  - (* departure, empty line *)
    apply next_event_Departure in Hev as [Hd _].
    rewrite (pending_departure_busy st d Hinv Hd) in Hlast.
    destruct Hlast as (served & c & Hstats & _ & Hc).
    rewrite Hd in Hc. inversion Hc; subst d.
    split; simpl; [exact Hseq|].
    rewrite Hstats, last_departure_snoc. lra.
  - (* departure, next customer starts *)
    pose proof (duration_nonneg service_rate (g 0%nat) Hmu (Hg 0%nat)).
    apply next_event_Departure in Hev as [Hd _].
    pose proof (pending_departure_busy st d Hinv Hd) as Hb.
    rewrite Hb in Hlast.
    destruct Hlast as (served & c & Hstats & _ & Hc).
    rewrite Hd in Hc. inversion Hc; subst d.
    split; simpl.
    + apply sequential_snoc; simpl; [exact Hseq | | lra].
      rewrite Hstats, last_departure_snoc. lra.
    + rewrite Hb. eexists _, _. split; [reflexivity | split; reflexivity].
Qed.

Lemma busy_time_within_horizon st :
  0 <= simulation_time ->
  service_inv st ->
  busy_time simulation_time st <= simulation_time.
Proof.
  intros Ht [Hseq Hlast]. unfold busy_time.
  fold (served_time simulation_time (customer_stats st)).
  destruct (server_busy st); simpl.
  - destruct Hlast as (served & c & Hstats & Hstart & Hc).
    rewrite Hc. simpl.
    destruct (Qlt_bool simulation_time (departure_time c)) eqn:E.
    + apply Qlt_bool_iff in E.
      assert (Hlate : completed simulation_time c = false).
      { unfold completed. destruct (Qle_bool _ _) eqn:E2; [|reflexivity].
        apply Qle_bool_iff in E2. lra. }
      rewrite Hstats in Hseq |- *.
      rewrite (served_time_snoc_late served c Hlate).
      pose proof (served_time_before_pending 0 served c Hseq).
      rewrite Hstart. lra.
    + pose proof (served_time_within_horizon 0 _ Hseq Ht). lra.
  - pose proof (served_time_within_horizon 0 _ Hseq Ht). lra.
Qed.

(** With non-negative variates and a positive horizon the reported
    utilization is at most 1. *)
Theorem utilization_at_most_one seed fuel g r g' :
  nonneg (start_rng seeded seed g) ->
  0 < simulation_time ->
  simulate_mm1_queue seeded arrival_rate service_rate simulation_time
    seed fuel g = (Returned r, g') ->
  server_utilization r <= 1.
Proof.
  intros Hg Ht H. apply simulate_Returned in H as (st & Hrun & Hstat).
  apply statistics_Returned in Hstat as (_ & _ & _ & _ & _ & -> & _).
  apply run_engine_Returned in Hrun as (Hrate & st0 & Hloop & ->).
  apply (event_loop_Returned arrival_rate service_rate simulation_time
           (fun st g => (engine_inv st /\ time_inv st /\ service_inv st)
                        /\ nonneg g))
    in Hloop as [[(_ & _ & Hsrv) _] _].
  - apply Qle_shift_div_r; [exact Ht|].
    pose proof (busy_time_within_horizon st0 ltac:(lra) Hsrv) as Hb.
    unfold busy_time in *. simpl. lra.
  - intros s h s' h' [(He & Htm & Hs) Hh] _ Hit.
    destruct (iteration_time_inv _ _ s h s' h' Hh Htm Hit) as [Htm' Hh'].
    split; [|exact Hh']. split; [|split; [exact Htm'|]].
    + exact (iteration_engine_inv _ _ s h s' h' He Hit).
    + exact (iteration_service_inv s h s' h' Hh He Htm Hs Hit).
  - split; [|apply nonneg_tail; exact Hg].
    split; [apply initial_engine_inv|]. split.
    + apply initial_time_inv. apply duration_nonneg; [exact Hrate | apply Hg].
    + apply initial_service_inv.
Qed.

End Utilization.

(** ** Invalid parameters and the overshoot of the last event *)

Section Failures.

Variable seeded : Z -> rng.
Variables arrival_rate service_rate simulation_time : Q.

Lemma sample_pos rate g :
  0 < rate ->
  sample rate g = (Returned (1 / rate * g 0%nat), fun k => g (S k)).
Proof.
  intros Hr. unfold sample, py_div, mbind, M_bind.
  destruct (Qeq_bool rate 0) eqn:E.
  { apply Qeq_bool_iff in E. lra. }
  unfold mret, M_ret, np_random_exponential.
  destruct (Qlt_bool (1 / rate) 0) eqn:E2; [|reflexivity].
  apply Qlt_bool_iff in E2.
  pose proof (duration_nonneg rate 1 Hr ltac:(lra)). lra.
Qed.

Lemma sample_zero rate g :
  rate == 0 -> sample rate g = (Raised ZeroDivisionError, g).
Proof.
  intros Hr. unfold sample, py_div, mbind, M_bind.
  apply Qeq_bool_iff in Hr. rewrite Hr. reflexivity.
Qed.

Lemma sample_neg rate g :
  rate < 0 -> sample rate g = (Raised ValueError, g).
Proof.
  intros Hr. unfold sample, py_div, mbind, M_bind.
  destruct (Qeq_bool rate 0) eqn:E.
  { apply Qeq_bool_iff in E. lra. }
  unfold mret, M_ret, np_random_exponential.
  destruct (Qlt_bool (1 / rate) 0) eqn:E2; [reflexivity|].
  apply Qlt_bool_false_iff in E2.
  assert (Hnz : ~ rate == 0) by lra.
  pose proof (Qmult_div_r 1 rate Hnz).
  assert (rate * (1 / rate) <= 0) by nra. lra.
Qed.

(** The run, with the seeding step resolved. *)
Lemma simulate_unfold seed fuel g :
  seed_ok seed ->
  simulate_mm1_queue seeded arrival_rate service_rate simulation_time
    seed fuel g
  = match sample arrival_rate (start_rng seeded seed g) with
    | (Returned first, g1) =>
      match event_loop arrival_rate service_rate simulation_time fuel
              (initial_state first) g1 with
      | (Returned st, g2) =>
        statistics simulation_time (final_update simulation_time st) g2
      | (Raised e, g2) => (Raised e, g2)
      | (OutOfFuel, g2) => (OutOfFuel, g2)
      end
    | (Raised e, g1) => (Raised e, g1)
    | (OutOfFuel, g1) => (OutOfFuel, g1)
    end.
Proof.
  intros Hseed.
  unfold simulate_mm1_queue, run_engine, mbind, M_bind, np_random_seed.
  destruct seed as [s|]; simpl in *; rewrite ?Hseed;
    destruct (sample arrival_rate _) as [[first|e|] g1]; try reflexivity;
    destruct (event_loop _ _ _ _ _ _) as [[st|e|] g2]; reflexivity.
Qed.

(** A seed numpy rejects aborts the call at line 7, whatever the other
    arguments are. *)
Lemma invalid_seed_rejected s fuel g :
  valid_seed s = false ->
  simulate_mm1_queue seeded arrival_rate service_rate simulation_time
    (Some s) fuel g = (Raised ValueError, g).
Proof.
  intros H.
  unfold simulate_mm1_queue, run_engine, mbind, M_bind, np_random_seed.
  rewrite H. reflexivity.
Qed.

Lemma event_loop_not_entered fuel st g :
  simulation_time <= current_time st ->
  event_loop arrival_rate service_rate simulation_time fuel st g
  = (Returned st, g).
Proof.
  intros H. apply Qlt_bool_false_iff in H.
  destruct fuel; simpl; rewrite H; reflexivity.
Qed.

Lemma statistics_zero_horizon st g :
  simulation_time == 0 ->
  statistics simulation_time st g = (Raised ZeroDivisionError, g).
Proof.
  intros H. unfold statistics, py_div, mbind, M_bind.
  apply Qeq_bool_iff in H. rewrite H. reflexivity.
Qed.

Lemma statistics_nonzero_horizon st g :
  ~ simulation_time == 0 ->
  exists r, statistics simulation_time st g = (Returned r, g).
Proof.
  intros H. unfold statistics, py_div, mbind, M_bind.
  destruct (Qeq_bool simulation_time 0) eqn:E.
  { apply Qeq_bool_iff in E. contradiction. }
  eexists. reflexivity.
Qed.

(** C3, as the code has it.  For a seed numpy accepts, or none, and
    with [g0] the generator after the optional reseeding: an arrival
    rate of 0 raises [ZeroDivisionError] and a negative one
    [ValueError] at the first draw, leaving the generator reseeded; with
    a positive arrival rate and a positive horizon, a service rate of 0
    or below raises the same errors while the first arrival is
    processed, after two variates were consumed; with a positive arrival
    rate, a horizon of 0 raises [ZeroDivisionError] when the utilization
    is computed, after one variate was consumed; and a negative horizon
    raises nothing: a result is returned. *)
Theorem invalid_parameters_outcome seed fuel g :
  seed_ok seed ->
  let g0 := start_rng seeded seed g in
  let run := simulate_mm1_queue seeded arrival_rate service_rate
               simulation_time seed in
  (arrival_rate == 0 -> run fuel g = (Raised ZeroDivisionError, g0)) /\
  (arrival_rate < 0 -> run fuel g = (Raised ValueError, g0)) /\
  (0 < arrival_rate -> 0 < simulation_time -> service_rate == 0 ->
   run (S fuel) g = (Raised ZeroDivisionError, fun k => g0 (S (S k)))) /\
  (0 < arrival_rate -> 0 < simulation_time -> service_rate < 0 ->
   run (S fuel) g = (Raised ValueError, fun k => g0 (S (S k)))) /\
  (0 < arrival_rate -> simulation_time == 0 ->
   run fuel g = (Raised ZeroDivisionError, fun k => g0 (S k))) /\
  (0 < arrival_rate -> simulation_time < 0 ->
   exists r, run fuel g = (Returned r, fun k => g0 (S k))).
Proof.
  intros Hseed. cbv zeta. repeat split.
  - intros H. rewrite simulate_unfold, sample_zero by assumption. reflexivity.
  - intros H. rewrite simulate_unfold, sample_neg by assumption. reflexivity.
  - intros Hl Ht Hm. rewrite simulate_unfold, sample_pos by assumption.
    simpl. apply Qlt_bool_iff in Ht. rewrite Ht.
    unfold mbind, M_bind, iteration, process_arrival. simpl.
    unfold mbind, M_bind.
    rewrite sample_pos by exact Hl. simpl.
    rewrite sample_zero by exact Hm. reflexivity.
  - intros Hl Ht Hm. rewrite simulate_unfold, sample_pos by assumption.
    simpl. apply Qlt_bool_iff in Ht. rewrite Ht.
    unfold mbind, M_bind, iteration, process_arrival. simpl.
    unfold mbind, M_bind.
    rewrite sample_pos by exact Hl. simpl.
    rewrite sample_neg by exact Hm. reflexivity.
  - intros Hl Ht. rewrite simulate_unfold, sample_pos by assumption.
    rewrite event_loop_not_entered by (simpl; lra).
    apply statistics_zero_horizon. exact Ht.
  - intros Hl Ht. rewrite simulate_unfold, sample_pos by assumption.
    rewrite event_loop_not_entered by (simpl; lra).
    apply statistics_nonzero_horizon. lra.
Qed.

Lemma event_loop_entered fuel st g :
  current_time st < simulation_time ->
  event_loop arrival_rate service_rate simulation_time (S fuel) st g
  = (st' ← iteration arrival_rate service_rate st;
     event_loop arrival_rate service_rate simulation_time fuel st') g.
Proof.
  intros H. apply Qlt_bool_iff in H. simpl. rewrite H. reflexivity.
Qed.

(** The first iteration of a run with valid rates: the first customer
    arrives at an idle server. *)
Lemma first_iteration first g :
  0 < arrival_rate -> 0 < service_rate ->
  let s := 1 / service_rate * g 1%nat in
  iteration arrival_rate service_rate (initial_state first) g
  = (Returned
       (SimState first true first (Some (first + s)) []
          [Customer first first (first + s)] first
          (ledger_add {[ 0%Z := 0 ]} 0 (first - 0)) 1
          (first + 1 / arrival_rate * g 0%nat)),
     fun k => g (S (S k))).
Proof.
  intros Hl Hm. unfold iteration, process_arrival, mbind, M_bind.
  cbn [next_event next_departure_time initial_state server_busy].
  rewrite sample_pos by exact Hl.
  rewrite sample_pos by exact Hm. reflexivity.
Qed.

(** Whenever the first inter-arrival sample exceeds the horizon, the
    run processes that arrival all the same, starts a service after the
    horizon and then corrects the ledger and the busy time by the
    negative amount [simulation_time - first]. *)
Lemma first_arrival_beyond_horizon seed fuel g :
  seed_ok seed ->
  let g0 := start_rng seeded seed g in
  let first := 1 / arrival_rate * g0 0%nat in
  0 < arrival_rate -> 0 < service_rate -> 0 < simulation_time ->
  simulation_time < first -> 0 <= g0 2%nat ->
  exists r g' p0 p1,
    simulate_mm1_queue seeded arrival_rate service_rate simulation_time
      seed (S fuel) g = (Returned r, g') /\
    server_utilization r == (simulation_time - first) / simulation_time /\
    server_utilization r < 0 /\
    state_probabilities r !! 0%Z = Some p0 /\
    state_probabilities r !! 1%Z = Some p1 /\
    p0 == first / simulation_time /\ 1 < p0 /\
    p1 == (simulation_time - first) / simulation_time /\ p1 < 0.
Proof.
  intros Hseed g0 first Hl Hm Ht Hfirst Hdraw.
  pose proof (duration_nonneg service_rate (g0 2%nat) Hm Hdraw) as Hs.
  rewrite simulate_unfold, sample_pos by assumption. fold g0 first.
  rewrite event_loop_entered by (simpl; exact Ht).
  unfold mbind at 1, M_bind at 1.
  rewrite first_iteration by assumption. cbv zeta.
  rewrite event_loop_not_entered by (simpl; lra).
  set (s := 1 / service_rate * g0 2%nat) in *.
  clearbody s first.
  match goal with
  | |- context [statistics _ ?st ?h] =>
    destruct (statistics_nonzero_horizon st h ltac:(lra)) as (r & Hr)
  end.
  pose proof (statistics_Returned _ _ _ _ _ Hr)
    as (_ & _ & _ & _ & _ & Hu & Hp).
  assert (Hlate : completed simulation_time (Customer first first (first + s))
                  = false).
  { unfold completed. simpl departure_time.
    destruct (Qle_bool (first + s) simulation_time) eqn:E; [|reflexivity].
    apply Qle_bool_iff in E. lra. }
  assert (Hafter : Qlt_bool simulation_time (first + s) = true).
  { apply Qlt_bool_iff. lra. }
  unfold busy_time in Hu.
  cbn [final_update customer_stats server_busy next_departure_time
       server_start_time List.filter departs_after_horizon] in Hu.
  rewrite Hlate, Hafter in Hu. cbn [fold_left andb] in Hu.
  cbn [final_update state_time current_state last_event_time] in Hp.
  assert (H0 : state_probabilities r !! 0%Z
               = Some ((0 + (first - 0)) / simulation_time)).
  { rewrite Hp, lookup_fmap. unfold ledger_add at 1.
    rewrite lookup_insert_ne by discriminate. unfold ledger_add, dict_get.
    rewrite lookup_insert_eq, lookup_singleton_eq. reflexivity. }
  assert (H1 : state_probabilities r !! 1%Z
               = Some ((0 + (simulation_time - first)) / simulation_time)).
  { rewrite Hp, lookup_fmap. unfold ledger_add at 1, dict_get at 1.
    rewrite lookup_insert_eq. unfold ledger_add.
    rewrite lookup_insert_ne, lookup_singleton_ne by discriminate.
    reflexivity. }
  exists r. eexists. eexists. eexists.
  split; [exact Hr|]. rewrite Hu.
  split; [field; lra|].
  split; [apply Qlt_shift_div_r; lra|].
  split; [exact H0|]. split; [exact H1|].
  split; [field; lra|].
  split; [apply Qlt_shift_div_l; lra|].
  split; [field; lra|].
  apply Qlt_shift_div_r; lra.
Qed.

End Failures.

(** C3 fails as stated: a horizon of -1 is accepted and a result comes
    back, and with an arrival rate of 0 the error surfaces only after
    the global generator has been reseeded. *)
Lemma negative_horizon_not_rejected :
  (-1 <= 0 /\ exists r g', negative_horizon_run = (Returned r, g')) /\
  (0 <= 0 /\ exists e g',
     zero_rate_run = (Raised e, g') /\ ~ g' 0%nat == long_draws 0%nat).
Proof.
  split; split.
  - discriminate.
  - eexists. eexists. vm_compute. reflexivity.
  - discriminate.
  - eexists. eexists. split; [vm_compute; reflexivity|]. discriminate.
Qed.

(** C2 fails on [overshoot_run]: the only arrival is processed at time
    0.4693, past the horizon 0.1, service starts there, and the closing
    correction adds [0.1 - 0.4693] to a busy time of 0; the reported
    utilization is -3.693. *)
Theorem utilization_negative_after_overshoot :
  exists r g',
    overshoot_run = (Returned r, g') /\
    completed_customers r = 0%nat /\
    server_busy_time r == - (3693 # 10000) /\
    server_utilization r == - (3693 # 1000) /\
    ~ 0 <= server_utilization r.
Proof.
  eexists. eexists. split; [vm_compute; reflexivity|]. simpl.
  split; [reflexivity|]. split; [reflexivity|]. split; [reflexivity|].
  intros H. apply H. reflexivity.
Qed.

(** C4 fails on [overshoot_run]: the ledger holds 0.4693 for population
    0, and the final update adds [0.1 - 0.4693] to the fresh entry of
    population 1, so the run reports probability 4.693 for population 0
    and -3.693 for population 1. *)
Theorem probabilities_leave_unit_interval :
  exists r g' p0 p1,
    overshoot_run = (Returned r, g') /\
    state_probabilities r !! 0%Z = Some p0 /\
    state_probabilities r !! 1%Z = Some p1 /\
    p0 == 4693 # 1000 /\ p1 == - (3693 # 1000) /\
    ~ p0 <= 1 /\ ~ 0 <= p1.
Proof.
  eexists. eexists. eexists. eexists.
  split; [vm_compute; reflexivity|].
  split; [vm_compute; reflexivity|].
  split; [vm_compute; reflexivity|].
  split; [reflexivity|]. split; [reflexivity|].
  split; intros H; apply H; reflexivity.
Qed.

(** ** Termination of the loop *)

Section Termination.

Variable seeded : Z -> rng.
Variables arrival_rate service_rate simulation_time delta : Q.
Hypothesis arrival_rate_pos : 0 < arrival_rate.
Hypothesis service_rate_pos : 0 < service_rate.
Hypothesis delta_pos : 0 < delta.

Lemma at_least_tail g : at_least delta g -> at_least delta (fun k => g (S k)).
Proof. intros H k. apply H. Qed.

(** With valid rates no iteration raises. *)
Lemma iteration_returns st g :
  exists st' g', iteration arrival_rate service_rate st g = (Returned st', g').
Proof.
  unfold iteration. destruct (next_event st) as [|d].
  - unfold process_arrival, mbind, M_bind.
    rewrite sample_pos by exact arrival_rate_pos.
    destruct (server_busy st).
    + eexists. eexists. reflexivity.
    + rewrite sample_pos by exact service_rate_pos.
      eexists. eexists. reflexivity.
  - unfold process_departure, mbind, M_bind.
    destruct (queue st).
    + eexists. eexists. reflexivity.
    + rewrite sample_pos by exact service_rate_pos.
      eexists. eexists. reflexivity.
Qed.

(** An inter-arrival gap moves the next arrival at least one slot of
    length [delta / arrival_rate] closer to the horizon. *)
Lemma arrivals_left_decreases na e :
  na < simulation_time -> delta <= e ->
  let slots x := Qfloor ((simulation_time - x) * arrival_rate / delta) in
  lt (if Qlt_bool (na + 1 / arrival_rate * e) simulation_time
      then S (Z.to_nat (slots (na + 1 / arrival_rate * e)))
      else 0%nat)
     (S (Z.to_nat (slots na))).
Proof.
  intros Hna He slots.
  destruct (Qlt_bool (na + 1 / arrival_rate * e) simulation_time) eqn:E;
    [|lia].
  apply Qlt_bool_iff in E.
  set (x := (simulation_time - na) * arrival_rate / delta).
  set (x' := (simulation_time - (na + 1 / arrival_rate * e))
             * arrival_rate / delta).
  assert (Hstep : x' <= x - 1).
  { assert (Hone : 1 <= e / delta).
    { apply Qle_shift_div_l; [exact delta_pos | lra]. }
    assert (Hdiff : x - x' == e / delta).
    { unfold x, x'. field. split; lra. }
    lra. }
  assert (Hpos : 0 <= x').
  { unfold x'. apply Qle_shift_div_l; [exact delta_pos|]. nra. }
  unfold slots. fold x x'. clearbody x x'.
  pose proof (Qfloor_le x') as Hf'.
  pose proof (Qlt_floor x) as Hf.
  assert (H0 : (0 <= Qfloor x')%Z).
  { rewrite <- (Qfloor_Z 0). apply Qfloor_resp_le. exact Hpos. }
  assert (Hlt : (Qfloor x' < Qfloor x)%Z).
  { rewrite Zlt_Qlt. rewrite inject_Z_plus in Hf.
    change (inject_Z 1) with 1 in Hf. lra. }
  lia.
Qed.

(** Every iteration either reaches the horizon or lowers the potential. *)
Lemma iteration_progress st g st' g' :
  engine_inv st ->
  at_least delta g ->
  iteration arrival_rate service_rate st g = (Returned st', g') ->
  (simulation_time <= current_time st' \/
   lt (potential arrival_rate simulation_time delta st')
      (potential arrival_rate simulation_time delta st)) /\
  at_least delta g'.
Proof.
  intros Hinv Hg H.
  assert (Hcount : (0 <= current_state st)%Z).
  { destruct Hinv as [_ _ _ Hc]. rewrite Hc. destruct (server_busy st); lia. }
  assert (Harr :
    forall busy sst nd q stats ledger,
      let now := next_arrival_time st in
      let st1 := SimState now busy sst nd q stats now ledger
                   (current_state st + 1)%Z
                   (now + 1 / arrival_rate * g 0%nat) in
      simulation_time <= current_time st1 \/
      lt (potential arrival_rate simulation_time delta st1)
         (potential arrival_rate simulation_time delta st)).
  { intros busy sst nd q stats ledger now st1.
    destruct (Qlt_le_dec now simulation_time) as [Hlt | Hge];
      [right | left; exact Hge].
    pose proof (arrivals_left_decreases now (g 0%nat) Hlt (Hg 0%nat)) as Hdec.
    cbv zeta beta in Hdec.
    unfold potential, arrivals_left, st1.
    cbn [next_arrival_time current_state]. fold now.
    apply Qlt_bool_iff in Hlt. rewrite Hlt. lia. }
  iteration_cases H.
  - split; [apply Harr | apply at_least_tail; exact Hg].
  - split; [apply Harr | intros k; apply Hg].
  - split; [|exact Hg]. right.
    apply next_event_Departure in Hev as [Hnd _].
    pose proof (pending_departure_busy st d Hinv Hnd) as Hb.
    destruct Hinv as [_ _ _ Hc]. rewrite Hb in Hc.
    unfold potential, arrivals_left.
    cbn [next_arrival_time current_state]. lia.
  - split; [|apply at_least_tail; exact Hg]. right.
    apply next_event_Departure in Hev as [Hnd _].
    pose proof (pending_departure_busy st d Hinv Hnd) as Hb.
    destruct Hinv as [_ _ _ Hc]. rewrite Hb in Hc.
    unfold potential, arrivals_left.
    cbn [next_arrival_time current_state]. lia.
Qed.

Lemma event_loop_terminates fuel st g :
  engine_inv st ->
  at_least delta g ->
  (potential arrival_rate simulation_time delta st < fuel)%nat ->
  exists st' g',
    event_loop arrival_rate service_rate simulation_time fuel st g
    = (Returned st', g').
Proof.
  revert st g. induction fuel as [|fuel IH]; intros st g Hinv Hg Hpot; [lia|].
  simpl. destruct (Qlt_bool (current_time st) simulation_time) eqn:E.
  - destruct (iteration_returns st g) as (st1 & g1 & Hit).
    unfold mbind, M_bind. rewrite Hit.
    destruct (iteration_progress st g st1 g1 Hinv Hg Hit) as [[Hend|Hlt] Hg1].
    + exists st1, g1. apply event_loop_not_entered. exact Hend.
    + apply IH; [|exact Hg1|lia].
      exact (iteration_engine_inv _ _ st g st1 g1 Hinv Hit).
  - exists st, g. reflexivity.
Qed.

(** With a seed numpy accepts, or none, positive rates, a horizon other
    than 0 and variates bounded away from 0, the run returns a result
    once it is given enough iterations. *)
Theorem simulate_returns seed g :
  seed_ok seed ->
  ~ simulation_time == 0 ->
  at_least delta (start_rng seeded seed g) ->
  exists fuel r g',
    simulate_mm1_queue seeded arrival_rate service_rate simulation_time
      seed fuel g = (Returned r, g').
Proof.
  intros Hseed Hnz Hg.
  set (g0 := start_rng seeded seed g) in *.
  set (st0 := initial_state (1 / arrival_rate * g0 0%nat)).
  exists (S (potential arrival_rate simulation_time delta st0)).
  rewrite simulate_unfold, sample_pos by assumption.
  fold g0 st0.
  destruct (event_loop_terminates
              (S (potential arrival_rate simulation_time delta st0)) st0
              (fun k => g0 (S k)))
    as (st & g' & Hloop).
  - apply initial_engine_inv.
  - apply at_least_tail. exact Hg.
  - lia.
  - rewrite Hloop.
    destruct (statistics_nonzero_horizon simulation_time
                (final_update simulation_time st) g' Hnz) as (r & Hr).
    exists r, g'. exact Hr.
Qed.

End Termination.

(** ** The theorems at concrete runs *)

Example exact_ledger_sums_to_horizon_on_steady_run :
  exists r g',
    steady_run = (Returned r, g') /\
    exists st,
      run_engine (fun _ => unit_draws) 1 2 3 (Some 42%Z) 10 long_draws
      = (Returned st, g') /\
      ledger_total (state_time st) == 3 /\
      ledger_total (state_probabilities r) == 1.
Proof.
  eexists. eexists. split; [vm_compute; reflexivity|].
  apply (exact_ledger_sums_to_horizon (fun _ => unit_draws) 1 2 3
           (Some 42%Z) 10%nat long_draws).
  vm_compute. reflexivity.
Qed.

Lemma arrival_wins_ties_witness :
  next_departure_time tied_state = Some 2 /\
  next_arrival_time tied_state == 2 /\
  iteration 1 2 tied_state = process_arrival 1 2 tied_state.
Proof.
  split; [reflexivity|]. split; [reflexivity|].
  apply (proj1 (arrival_wins_ties 1 2 tied_state) 2); reflexivity.
Defined.

Lemma seeded_runs_agree_witness :
  (simulate_mm1_queue (fun _ => unit_draws) 1 2 3 (Some 42%Z) 10 long_draws).1
  = (simulate_mm1_queue (fun _ => unit_draws) 1 2 3 (Some 42%Z) 25
       unit_draws).1.
Proof.
  apply (seeded_runs_agree (fun _ => unit_draws) 1 2 3 42%Z 10%nat 25%nat
           long_draws unit_draws);
    unfold finished; vm_compute; discriminate.
Defined.

Lemma population_count_steps_witness :
  exists st' g',
    iteration 1 2 (initial_state 1) unit_draws = (Returned st', g') /\
    current_state st' = 1%Z /\ (0 <= current_state st')%Z.
Proof.
  eexists. eexists. split; [vm_compute; reflexivity|].
  eapply (proj2 (population_count_steps 1 2 3) (initial_state 1) unit_draws).
  - apply reachable_init.
  - vm_compute. reflexivity.
Defined.

(** The invariant at states the loop reaches after events: with rates
    1 and 2, after the first arrival (server busy, a departure pending)
    and after the departure that follows (server idle, none pending);
    with rates 2 and 1, after two arrivals (server busy, one customer
    waiting). *)
Lemma no_departure_iff_idle_and_empty_witness :
  exists st1 g1 st2 g2 st3 g3 st4 g4,
    iteration 1 2 (initial_state 1) unit_draws = (Returned st1, g1) /\
    iteration 1 2 st1 g1 = (Returned st2, g2) /\
    iteration 2 1 (initial_state (1 # 2)) unit_draws = (Returned st3, g3) /\
    iteration 2 1 st3 g3 = (Returned st4, g4) /\
    (server_busy st1 = true /\ next_departure_time st1 = Some (1 + 1 / 2 * 1)) /\
    (server_busy st2 = false /\ next_departure_time st2 = None) /\
    (server_busy st4 = true /\ length (queue st4) = 1%nat) /\
    (next_departure_time st1 = None <->
     server_busy st1 = false /\ queue st1 = []) /\
    (next_departure_time st2 = None <->
     server_busy st2 = false /\ queue st2 = []) /\
    (next_departure_time st4 = None <->
     server_busy st4 = false /\ queue st4 = []).
Proof.
  do 8 eexists.
  split; [vm_compute; reflexivity|].
  split; [vm_compute; reflexivity|].
  split; [vm_compute; reflexivity|].
  split; [vm_compute; reflexivity|].
  split; [split; reflexivity|].
  split; [split; reflexivity|].
  split; [split; reflexivity|].
  assert (H1 : reachable 1 2 3 (initial_state 1)) by apply reachable_init.
  assert (H3 : reachable 2 1 3 (initial_state (1 # 2)))
    by apply reachable_init.
  split; [|split].
  - apply (no_departure_iff_idle_and_empty 1 2 3).
    eapply (reachable_step 1 2 3 (initial_state 1) unit_draws);
      [exact H1 | reflexivity | vm_compute; reflexivity].
  - apply (no_departure_iff_idle_and_empty 1 2 3).
    eapply (reachable_step 1 2 3 _ unit_draws);
      [ eapply (reachable_step 1 2 3 (initial_state 1) unit_draws);
        [exact H1 | reflexivity | vm_compute; reflexivity]
      | reflexivity | vm_compute; reflexivity ].
  - apply (no_departure_iff_idle_and_empty 2 1 3).
    eapply (reachable_step 2 1 3 _ unit_draws);
      [ eapply (reachable_step 2 1 3 (initial_state (1 # 2)) unit_draws);
        [exact H3 | reflexivity | vm_compute; reflexivity]
      | reflexivity | vm_compute; reflexivity ].
Defined.

Lemma completed_records_ordered_witness :
  exists st g',
    run_engine (fun _ => unit_draws) 1 2 3 (Some 42%Z) 10 long_draws
    = (Returned st, g') /\
    let c := Customer 1 1 (1 + 1 / 2 * 1) in
    c ∈ customer_stats st /\
    0 <= service_start_time c - arrival_time c /\
    service_start_time c - arrival_time c
    <= departure_time c - arrival_time c /\
    arrival_time c <= service_start_time c /\
    service_start_time c <= departure_time c.
Proof.
  eexists. eexists. split; [vm_compute; reflexivity|]. cbv zeta.
  split; [apply list_elem_of_here|].
  eapply (completed_records_ordered (fun _ => unit_draws) 1 2 3 (Some 42%Z)
            10%nat long_draws _ _ (Customer 1 1 (1 + 1 / 2 * 1)));
    [ intros k; discriminate
    | vm_compute; reflexivity
    | apply list_elem_of_here
    | reflexivity ].
Defined.

Lemma tail_customers_bounded_witness :
  exists r g',
    steady_run = (Returned r, g') /\
    (completed_customers r <= total_customers r)%nat /\
    (total_customers r <= completed_customers r + 2)%nat.
Proof.
  eexists. eexists. split; [vm_compute; reflexivity|].
  eapply (tail_customers_bounded (fun _ => unit_draws) 1 2 3 (Some 42%Z)
            10%nat long_draws).
  vm_compute. reflexivity.
Defined.

Lemma invalid_parameters_outcome_witness :
  simulate_mm1_queue (fun _ => unit_draws) 0 1 1 (Some 42%Z) 10 long_draws
  = (Raised ZeroDivisionError, unit_draws) /\
  simulate_mm1_queue (fun _ => unit_draws) (-1) 1 1 (Some 42%Z) 10 long_draws
  = (Raised ValueError, unit_draws) /\
  simulate_mm1_queue (fun _ => unit_draws) 1 0 1 None 10 long_draws
  = (Raised ZeroDivisionError, fun k => long_draws (S (S k))) /\
  simulate_mm1_queue (fun _ => unit_draws) 1 (-1) 1 None 10 long_draws
  = (Raised ValueError, fun k => long_draws (S (S k))) /\
  simulate_mm1_queue (fun _ => unit_draws) 1 1 0 None 10 long_draws
  = (Raised ZeroDivisionError, fun k => long_draws (S k)) /\
  exists r,
    simulate_mm1_queue (fun _ => unit_draws) 1 1 (-1) None 10 long_draws
    = (Returned r, fun k => long_draws (S k)).
Proof.
  pose proof (fun rate_a rate_s horizon seed fuel ok =>
                invalid_parameters_outcome (fun _ => unit_draws)
                  rate_a rate_s horizon seed fuel long_draws ok) as H.
  cbv zeta in H.
  destruct (H 0 1 1 (Some 42%Z) 10%nat eq_refl) as (H1 & _).
  destruct (H (-1) 1 1 (Some 42%Z) 10%nat eq_refl) as (_ & H2 & _).
  destruct (H 1 0 1 None 9%nat I) as (_ & _ & H3 & _).
  destruct (H 1 (-1) 1 None 9%nat I) as (_ & _ & _ & H4 & _).
  destruct (H 1 1 0 None 10%nat I) as (_ & _ & _ & _ & H5 & _).
  destruct (H 1 1 (-1) None 10%nat I) as (_ & _ & _ & _ & _ & H6).
  split; [apply H1; reflexivity|].
  split; [apply H2; reflexivity|].
  split; [apply H3; reflexivity|].
  split; [apply H4; reflexivity|].
  split; [apply H5; reflexivity|].
  apply H6; reflexivity.
Defined.

(** Without a seed the outcome depends on the state the global generator
    happens to be in. *)
Remark unseeded_runs_depend_on_generator :
  (simulate_mm1_queue (fun _ => unit_draws) 1 2 3 None 10 unit_draws).1
  <> (simulate_mm1_queue (fun _ => unit_draws) 1 2 3 None 10 long_draws).1.
Proof. vm_compute. discriminate. Qed.

(** A run with unit variates ends within the potential of its initial
    state. *)
Example simulate_returns_on_unit_draws :
  exists fuel r g',
    simulate_mm1_queue (fun _ => unit_draws) 1 2 3 (Some 42%Z) fuel long_draws
    = (Returned r, g').
Proof.
  apply (simulate_returns (fun _ => unit_draws) 1 2 3 1).
  - reflexivity.
  - reflexivity.
  - reflexivity.
  - reflexivity.
  - discriminate.
  - intros k. discriminate.
Qed.

(** ** Invariants along one run *)

Section RunStateLemmas.

Variable seeded : Z -> rng.
Variables arrival_rate service_rate simulation_time : Q.

Lemma run_state_reachable g0 st g :
  run_state arrival_rate service_rate simulation_time g0 st g ->
  reachable arrival_rate service_rate simulation_time st.
Proof.
  induction 1 as [Hrate|st g st' g' _ IH Hguard Hstep].
  - apply reachable_init.
  - exact (reachable_step _ _ _ st g st' g' IH Hguard Hstep).
Qed.

Lemma run_state_time_inv g0 st g :
  nonneg g0 ->
  run_state arrival_rate service_rate simulation_time g0 st g ->
  time_inv st /\ nonneg g.
Proof.
  intros Hg0. induction 1 as [Hrate|st g st' g' _ [IHt IHg] _ Hstep].
  - split.
    + apply initial_time_inv. apply duration_nonneg; [exact Hrate | apply Hg0].
    + apply nonneg_tail. exact Hg0.
  - exact (iteration_time_inv _ _ st g st' g' IHg IHt Hstep).
Qed.

Lemma run_state_service_inv g0 st g :
  nonneg g0 ->
  run_state arrival_rate service_rate simulation_time g0 st g ->
  service_inv st.
Proof.
  intros Hg0. induction 1 as [Hrate|st g st' g' Hrun IH _ Hstep].
  - apply initial_service_inv.
  - destruct (run_state_time_inv g0 st g Hg0 Hrun) as [Ht Hg].
    apply (iteration_service_inv arrival_rate service_rate st g st' g');
      try assumption.
    apply (reachable_engine_inv arrival_rate service_rate simulation_time).
    apply (run_state_reachable g0 st g). exact Hrun.
Qed.

Lemma event_loop_run_state g0 fuel st g st' g' :
  run_state arrival_rate service_rate simulation_time g0 st g ->
  event_loop arrival_rate service_rate simulation_time fuel st g
  = (Returned st', g') ->
  run_state arrival_rate service_rate simulation_time g0 st' g' /\
  simulation_time <= current_time st'.
Proof.
  apply (event_loop_Returned arrival_rate service_rate simulation_time
           (run_state arrival_rate service_rate simulation_time g0)).
  intros s h s' h' Hrun Hguard Hit.
  exact (run_state_step _ _ _ g0 s h s' h' Hrun Hguard Hit).
Qed.

(** A run that gets past the loop ends in the final update of a state
    of the run in which the clock has reached the horizon. *)
Lemma run_engine_run_state seed fuel g st g' :
  run_engine seeded arrival_rate service_rate simulation_time seed fuel g
  = (Returned st, g') ->
  exists st0,
    run_state arrival_rate service_rate simulation_time
      (start_rng seeded seed g) st0 g' /\
    simulation_time <= current_time st0 /\
    st = final_update simulation_time st0.
Proof.
  intros H. apply run_engine_Returned in H as (Hrate & st0 & Hloop & ->).
  exists st0.
  apply (event_loop_run_state (start_rng seeded seed g)) in Hloop
    as [Hrun Hstop].
  - split; [exact Hrun | split; [exact Hstop | reflexivity]].
  - apply run_state_init. exact Hrate.
Qed.

(** *** The clock *)

Lemma iteration_clock st g st' g' :
  time_inv st ->
  iteration arrival_rate service_rate st g = (Returned st', g') ->
  current_time st <= current_time st' /\
  last_event_time st' = current_time st'.
Proof.
  intros [Hna Hnd _ _] H. iteration_cases H; simpl.
  - split; [exact Hna | reflexivity].
  - split; [exact Hna | reflexivity].
  - apply next_event_Departure in Hev as [Hd _].
    split; [exact (Hnd d Hd) | reflexivity].
  - apply next_event_Departure in Hev as [Hd _].
    split; [exact (Hnd d Hd) | reflexivity].
Qed.

Lemma run_state_clock g0 st g :
  nonneg g0 ->
  run_state arrival_rate service_rate simulation_time g0 st g ->
  last_event_time st = current_time st /\ 0 <= current_time st.
Proof.
  intros Hg0. induction 1 as [Hrate|st g st' g' Hrun [_ IH] _ Hstep].
  - split; [reflexivity | simpl; lra].
  - destruct (run_state_time_inv g0 st g Hg0 Hrun) as [Ht _].
    destruct (iteration_clock st g st' g' Ht Hstep) as [Hle Heq].
    split; [exact Heq | lra].
Qed.

(** X1. With non-negative variates the clock never runs backwards: each
    iteration of the loop moves [current_time] to a time that is not
    earlier, and [last_event_time] follows it. *)
Theorem clock_never_runs_backwards g0 st g st' g' :
  nonneg g0 ->
  run_state arrival_rate service_rate simulation_time g0 st g ->
  iteration arrival_rate service_rate st g = (Returned st', g') ->
  current_time st <= current_time st' /\
  last_event_time st' = current_time st'.
Proof.
  intros Hg0 Hrun.
  destruct (run_state_time_inv g0 st g Hg0 Hrun) as [Ht _].
  apply iteration_clock. exact Ht.
Qed.

(** Records exist as soon as the clock has left 0. *)
Lemma reachable_started st :
  reachable arrival_rate service_rate simulation_time st ->
  customer_stats st = [] -> current_time st = 0.
Proof.
  induction 1 as [first|st g st' g' Hreach _ _ H]; [reflexivity|].
  pose proof (reachable_engine_inv _ _ _ st Hreach) as Hinv.
  pose proof (reachable_records_inv _ _ _ st Hreach)
    as (served & pending & Hstats & Hpend & _).
  intros Hnil. exfalso. iteration_cases H; simpl in Hnil.
  - destruct Hpend as (c & -> & _). rewrite Hstats in Hnil.
    destruct served; discriminate.
  - destruct (customer_stats st); discriminate.
  - apply next_event_Departure in Hev as [Hd _].
    rewrite (pending_departure_busy st d Hinv Hd) in Hpend.
    destruct Hpend as (c & -> & _). rewrite Hstats in Hnil.
    destruct served; discriminate.
  - destruct (customer_stats st); discriminate.
Qed.

(** X2. When the loop is left the clock has reached the horizon, so the
    final ledger update adds [simulation_time - last_event_time <= 0]:
    it can only take time away from the entry of the final population
    count.  With a positive horizon at least one iteration ran, and the
    result reports at least one customer. *)
Theorem final_update_takes_time_away seed fuel g r g' :
  simulate_mm1_queue seeded arrival_rate service_rate simulation_time
    seed fuel g = (Returned r, g') ->
  exists st0,
    run_engine seeded arrival_rate service_rate simulation_time seed fuel g
    = (Returned (final_update simulation_time st0), g') /\
    simulation_time - last_event_time st0 <= 0 /\
    dict_get (state_time (final_update simulation_time st0))
             (current_state st0)
    <= dict_get (state_time st0) (current_state st0) /\
    (0 < simulation_time -> (1 <= total_customers r)%nat).
Proof.
  intros H. apply simulate_Returned in H as (st & Hrun & Hstat).
  pose proof (run_engine_run_state seed fuel g st g' Hrun)
    as (st0 & Hrs & Hstop & ->).
  exists st0. split; [exact Hrun|].
  pose proof (run_state_reachable _ st0 g' Hrs) as Hreach.
  assert (Hlast : last_event_time st0 = current_time st0).
  { clear -Hrs. induction Hrs as [Hrate|s h s' h' _ _ _ Hstep];
      [reflexivity|].
    iteration_cases Hstep; reflexivity. }
  assert (Hneg : simulation_time - last_event_time st0 <= 0).
  { rewrite Hlast. lra. }
  split; [exact Hneg|]. split.
  - simpl. unfold ledger_add, dict_get at 1.
    rewrite lookup_insert_eq. simpl. unfold dict_get. lra.
  - intros Hpos.
    apply statistics_Returned in Hstat as (_ & _ & -> & _). simpl.
    destruct (customer_stats st0) eqn:E; [|simpl; lia].
    pose proof (reachable_started st0 Hreach E) as H0.
    rewrite H0 in Hstop. lra.
Qed.

End RunStateLemmas.

(** ** Queueing discipline *)

Section Discipline.

Variable seeded : Z -> rng.
Variables arrival_rate service_rate simulation_time : Q.

Lemma StronglySorted_snoc (l : list Q) x :
  StronglySorted Qle l -> Forall (fun a => a <= x) l ->
  StronglySorted Qle (l ++ [x]).
Proof.
  induction 1 as [|a l Hs IH Ha]; intros Hx; simpl.
  - repeat constructor.
  - apply Forall_cons in Hx as [Hax Hx]. constructor.
    + apply IH. exact Hx.
    + apply Forall_app. split; [exact Ha | repeat constructor; exact Hax].
Qed.

Lemma iteration_fifo st g st' g' :
  engine_inv st ->
  time_inv st ->
  StronglySorted Qle (arrivals st) /\
  Forall (fun a => a <= current_time st) (arrivals st) ->
  iteration arrival_rate service_rate st g = (Returned st', g') ->
  StronglySorted Qle (arrivals st') /\
  Forall (fun a => a <= current_time st') (arrivals st').
Proof.
  intros Hinv [Hna Hnd _ _] [Hsorted Hpast] H.
  assert (Hbefore : forall t, current_time st <= t ->
                              Forall (fun a => a <= t) (arrivals st)).
  { intros t Ht. eapply Forall_impl; [exact Hpast|]. simpl. intros a Ha. lra. }
  unfold arrivals in *. iteration_cases H; simpl.
  - (* arrival, server busy: the newcomer joins the end of the line *)
    rewrite app_assoc. specialize (Hbefore _ Hna). split.
    + apply StronglySorted_snoc; assumption.
    + apply Forall_app. split; [exact Hbefore|].
      apply Forall_singleton. lra.
  - (* arrival, server idle: nobody waits, the newcomer is served *)
    destruct Hinv as [_ _ Hline _]. rewrite (Hline Hbusy) in *.
    rewrite app_nil_r in *. rewrite map_app. simpl.
    specialize (Hbefore _ Hna). split.
    + apply StronglySorted_snoc; assumption.
    + apply Forall_app. split; [exact Hbefore|].
      apply Forall_singleton. lra.
  - (* departure, empty line *)
    apply next_event_Departure in Hev as [Hd _].
    split; [exact Hsorted | exact (Hbefore d (Hnd d Hd))].
  - (* departure: the head of the line moves to the records *)
    apply next_event_Departure in Hev as [Hd _].
    rewrite map_app. simpl. rewrite <- app_assoc. simpl.
    split; [exact Hsorted | exact (Hbefore d (Hnd d Hd))].
Qed.

Lemma run_state_fifo g0 st g :
  nonneg g0 ->
  run_state arrival_rate service_rate simulation_time g0 st g ->
  StronglySorted Qle (arrivals st) /\
  Forall (fun a => a <= current_time st) (arrivals st).
Proof.
  intros Hg0. induction 1 as [Hrate|st g st' g' Hrun IH _ Hstep].
  - split; constructor.
  - destruct (run_state_time_inv _ _ _ g0 st g Hg0 Hrun) as [Ht _].
    apply (iteration_fifo st g st' g'); try assumption.
    apply (reachable_engine_inv arrival_rate service_rate simulation_time).
    apply (run_state_reachable _ _ _ g0 st g). exact Hrun.
Qed.

(** X3. First come, first served: with non-negative variates, the
    arrival times of the records, followed by the arrival times still
    in the waiting line, are in non-decreasing order when the run
    returns; customers enter service in the order they arrived and
    those left waiting arrived after all of them. *)
Theorem first_come_first_served seed fuel g st g' :
  nonneg (start_rng seeded seed g) ->
  run_engine seeded arrival_rate service_rate simulation_time seed fuel g
  = (Returned st, g') ->
  StronglySorted Qle (map arrival_time (customer_stats st) ++ queue st).
Proof.
  intros Hg H.
  apply run_engine_run_state in H as (st0 & Hrun & _ & ->).
  exact (proj1 (run_state_fifo _ st0 g' Hg Hrun)).
Qed.

(** *** Lindley's recursion *)

Lemma lindley_snoc prev l c :
  lindley prev l ->
  service_start_time c == Qmax (last_departure prev l) (arrival_time c) ->
  lindley prev (l ++ [c]).
Proof.
  revert prev. induction l as [|c0 l IH]; intros prev Hl Hc; simpl in *.
  - split; [exact Hc | exact I].
  - destruct Hl as [H0 Hl]. split; [exact H0|]. apply IH; assumption.
Qed.

Lemma lindley_lookup prev l i c1 c2 :
  lindley prev l ->
  l !! i = Some c1 -> l !! S i = Some c2 ->
  service_start_time c2 == Qmax (departure_time c1) (arrival_time c2).
Proof.
  revert prev i. induction l as [|c l IH]; intros prev i Hl H1 H2.
  - discriminate.
  - destruct Hl as [_ Hl]. destruct i as [|i]; simpl in *.
    + inversion H1; subst c1. destruct l as [|c' l]; [discriminate|].
      simpl in H2. inversion H2; subst c2. exact (proj1 Hl).
    + exact (IH _ i Hl H1 H2).
Qed.

Lemma iteration_lindley st g st' g' :
  engine_inv st ->
  time_inv st ->
  service_inv st ->
  lindley 0 (customer_stats st) ->
  iteration arrival_rate service_rate st g = (Returned st', g') ->
  lindley 0 (customer_stats st').
Proof.
  intros Hinv [Hna Hnd Hline _] [_ Hlast] Hl H. iteration_cases H; simpl.
  - exact Hl.
  - apply lindley_snoc; [exact Hl|]. simpl.
    symmetry. apply Q.max_r. lra.
  - exact Hl.
  - apply next_event_Departure in Hev as [Hd _].
    rewrite (pending_departure_busy st d Hinv Hd) in Hlast.
    destruct Hlast as (served & c & Hstats & _ & Hc).
    rewrite Hd in Hc. inversion Hc; subst d.
    apply Forall_cons in Hline as [Ha _].
    specialize (Hnd _ Hd).
    apply lindley_snoc; [exact Hl|]. simpl.
    rewrite Hstats, last_departure_snoc.
    symmetry. apply Q.max_l. lra.
Qed.

Lemma run_state_lindley g0 st g :
  nonneg g0 ->
  run_state arrival_rate service_rate simulation_time g0 st g ->
  lindley 0 (customer_stats st).
Proof.
  intros Hg0. induction 1 as [Hrate|st g st' g' Hrun IH _ Hstep].
  - exact I.
  - destruct (run_state_time_inv _ _ _ g0 st g Hg0 Hrun) as [Ht _].
    apply (iteration_lindley st g st' g'); try assumption.
    + apply (reachable_engine_inv arrival_rate service_rate simulation_time).
      apply (run_state_reachable _ _ _ g0 st g). exact Hrun.
    + exact (run_state_service_inv _ _ _ g0 st g Hg0 Hrun).
Qed.

(** X4. Lindley's recursion: with non-negative variates, the first
    record starts service at the later of time 0 and its arrival, and
    every further record starts at the later of its own arrival and the
    departure of the record before it. *)
Theorem service_starts_follow_lindley seed fuel g st g' :
  nonneg (start_rng seeded seed g) ->
  run_engine seeded arrival_rate service_rate simulation_time seed fuel g
  = (Returned st, g') ->
  (forall c,
     customer_stats st !! 0%nat = Some c ->
     service_start_time c == Qmax 0 (arrival_time c)) /\
  (forall i c1 c2,
     customer_stats st !! i = Some c1 ->
     customer_stats st !! S i = Some c2 ->
     service_start_time c2 == Qmax (departure_time c1) (arrival_time c2)).
Proof.
  intros Hg H.
  apply run_engine_run_state in H as (st0 & Hrun & _ & ->). simpl.
  pose proof (run_state_lindley _ st0 g' Hg Hrun) as Hl.
  split.
  - intros c Hc. destruct (customer_stats st0) as [|c0 l]; [discriminate|].
    simpl in Hc. inversion Hc; subst c0. exact (proj1 Hl).
  - intros i c1 c2. apply lindley_lookup with (prev := 0). exact Hl.
Qed.

(** *** Variates drawn *)

Lemma run_state_consumed g0 st g :
  run_state arrival_rate service_rate simulation_time g0 st g ->
  forall i, g i = g0 (i + consumed st)%nat.
Proof.
  induction 1 as [Hrate|st g st' g' _ IH _ H]; intros i.
  - unfold consumed. simpl. f_equal. lia.
  - unfold consumed in *. iteration_cases H; simpl.
    + rewrite IH, length_app. simpl. f_equal. lia.
    + rewrite IH, length_app. simpl. f_equal. lia.
    + rewrite IH. simpl. f_equal.
    + rewrite IH, length_app. simpl. f_equal. lia.
Qed.

(** X5. A call that returns has drawn one variate per arrival it
    processed and one per service it started, plus the first
    inter-arrival sample: the generator is left
    [1 + 2 * total_customers + len(queue)] variates further than the
    optional reseeding put it. *)
Theorem variates_consumed seed fuel g r g' :
  simulate_mm1_queue seeded arrival_rate service_rate simulation_time
    seed fuel g = (Returned r, g') ->
  exists st,
    run_engine seeded arrival_rate service_rate simulation_time seed fuel g
    = (Returned st, g') /\
    forall i,
      g' i = start_rng seeded seed g
               (i + (1 + 2 * total_customers r + length (queue st)))%nat.
Proof.
  intros H. apply simulate_Returned in H as (st & Hrun & Hstat).
  exists st. split; [exact Hrun|].
  apply statistics_Returned in Hstat as (_ & _ & -> & _).
  apply run_engine_run_state in Hrun as (st0 & Hrs & _ & ->).
  intros i. exact (run_state_consumed _ st0 g' Hrs i).
Qed.

End Discipline.

(** ** Shape of the ledger *)

Lemma ledger_add_is_Some (d : gmap Z Q) k dt n :
  is_Some (ledger_add d k dt !! n) <-> n = k \/ is_Some (d !! n).
Proof.
  unfold ledger_add. destruct (decide (n = k)) as [->|Hne].
  - rewrite lookup_insert_eq. split; [intros _; left; reflexivity|].
    intros _. eexists. reflexivity.
  - rewrite lookup_insert_ne by congruence. tauto.
Qed.

Lemma keys_after_add (d : gmap Z Q) k dt m :
  (forall n, is_Some (d !! n) <-> (0 <= n <= m)%Z) ->
  (0 <= k <= m + 1)%Z ->
  forall n, is_Some (ledger_add d k dt !! n) <-> (0 <= n <= Z.max m k)%Z.
Proof.
  intros Hd Hk n. rewrite ledger_add_is_Some, Hd. lia.
Qed.

Lemma ledger_add_nonneg (d : gmap Z Q) k dt :
  map_Forall (fun _ t => 0 <= t) d -> 0 <= dt ->
  map_Forall (fun _ t => 0 <= t) (ledger_add d k dt).
Proof.
  intros Hd Hdt. unfold ledger_add. apply map_Forall_insert_2; [|exact Hd].
  unfold dict_get. destruct (d !! k) as [x|] eqn:E; simpl.
  - pose proof (Hd k x E) as Hx. simpl in Hx. lra.
  - lra.
Qed.

Section LedgerShape.

Variable seeded : Z -> rng.
Variables arrival_rate service_rate simulation_time : Q.

Lemma count_nonneg st : engine_inv st -> (0 <= current_state st)%Z.
Proof.
  intros [_ _ _ Hc]. rewrite Hc. destruct (server_busy st); lia.
Qed.

Lemma iteration_keys_inv st g st' g' :
  engine_inv st ->
  keys_inv st ->
  iteration arrival_rate service_rate st g = (Returned st', g') ->
  keys_inv st'.
Proof.
  intros Hinv (m & Hm & Hkeys & Hcs) H.
  pose proof (count_nonneg st Hinv) as H0.
  pose proof (iteration_engine_inv _ _ st g st' g' Hinv H) as Hinv'.
  apply count_nonneg in Hinv'.
  exists (Z.max m (current_state st)).
  assert (Hnew : forall dt n,
            is_Some (ledger_add (state_time st) (current_state st) dt !! n)
            <-> (0 <= n <= Z.max m (current_state st))%Z).
  { intros dt. apply keys_after_add; [exact Hkeys | lia]. }
  iteration_cases H; simpl in *;
    (split; [lia | split; [apply Hnew | lia]]).
Qed.

Lemma reachable_keys_inv st :
  reachable arrival_rate service_rate simulation_time st -> keys_inv st.
Proof.
  induction 1 as [first|st g st' g' Hreach IH _ Hstep].
  - exists 0%Z. simpl. split; [lia|]. split; [|lia].
    intros n. destruct (decide (n = 0%Z)) as [->|Hne].
    + rewrite lookup_singleton_eq. split; [lia | eauto].
    + rewrite lookup_singleton_ne by congruence.
      split; [intros [x Hx]; discriminate | lia].
  - apply (iteration_keys_inv st g st' g'); try assumption.
    apply (reachable_engine_inv arrival_rate service_rate simulation_time).
    exact Hreach.
Qed.

(** X6. The population counts reported in [state_probabilities] are
    exactly [0, 1, ..., m] for some [m >= 0]: count 0 is always there,
    no count is negative and none is skipped. *)
Theorem reported_counts_are_contiguous seed fuel g r g' :
  simulate_mm1_queue seeded arrival_rate service_rate simulation_time
    seed fuel g = (Returned r, g') ->
  exists m : Z,
    (0 <= m)%Z /\
    forall n, is_Some (state_probabilities r !! n) <-> (0 <= n <= m)%Z.
Proof.
  intros H. apply simulate_Returned in H as (st & Hrun & Hstat).
  apply statistics_Returned in Hstat as (_ & _ & _ & _ & _ & _ & ->).
  apply run_engine_reachable in Hrun as (st0 & Hreach & _ & ->).
  pose proof (reachable_engine_inv _ _ _ st0 Hreach) as Hinv.
  apply count_nonneg in Hinv.
  apply reachable_keys_inv in Hreach as (m & Hm & Hkeys & Hcs).
  exists (Z.max m (current_state st0)). split; [lia|].
  intros n. rewrite lookup_fmap, fmap_is_Some. simpl.
  apply keys_after_add; [exact Hkeys | lia].
Qed.

(** *** Signs of the entries *)

Lemma iteration_ledger_nonneg st g st' g' :
  time_inv st ->
  last_event_time st = current_time st ->
  map_Forall (fun _ t => 0 <= t) (state_time st) ->
  iteration arrival_rate service_rate st g = (Returned st', g') ->
  map_Forall (fun _ t => 0 <= t) (state_time st').
Proof.
  intros [Hna Hnd _ _] Hlast Hd H.
  iteration_cases H; simpl; apply ledger_add_nonneg; try exact Hd;
    rewrite Hlast.
  - lra.
  - lra.
  - apply next_event_Departure in Hev as [Hd' _]. specialize (Hnd _ Hd'). lra.
  - apply next_event_Departure in Hev as [Hd' _]. specialize (Hnd _ Hd'). lra.
Qed.

Lemma run_state_ledger_nonneg g0 st g :
  nonneg g0 ->
  run_state arrival_rate service_rate simulation_time g0 st g ->
  map_Forall (fun _ t => 0 <= t) (state_time st).
Proof.
  intros Hg0. induction 1 as [Hrate|st g st' g' Hrun IH _ Hstep].
  - simpl. intros n t Hn. apply lookup_singleton_Some in Hn as [_ <-]. lra.
  - destruct (run_state_time_inv _ _ _ g0 st g Hg0 Hrun) as [Ht _].
    destruct (run_state_clock arrival_rate service_rate simulation_time
                g0 st g Hg0 Hrun) as [Hlast _].
    exact (iteration_ledger_nonneg st g st' g' Ht Hlast IH Hstep).
Qed.

(** X7. With non-negative variates and a positive horizon, at most one
    reported probability is negative: every entry of
    [state_probabilities] other than the one of the population count
    the run ended in is >= 0. *)
Theorem only_final_count_can_be_negative seed fuel g r g' :
  nonneg (start_rng seeded seed g) ->
  0 < simulation_time ->
  simulate_mm1_queue seeded arrival_rate service_rate simulation_time
    seed fuel g = (Returned r, g') ->
  exists st,
    run_engine seeded arrival_rate service_rate simulation_time seed fuel g
    = (Returned st, g') /\
    forall n p,
      state_probabilities r !! n = Some p ->
      n <> current_state st -> 0 <= p.
Proof.
  intros Hg Ht H. apply simulate_Returned in H as (st & Hrun & Hstat).
  exists st. split; [exact Hrun|].
  apply statistics_Returned in Hstat as (_ & _ & _ & _ & _ & _ & ->).
  apply run_engine_run_state in Hrun as (st0 & Hrs & _ & ->).
  pose proof (run_state_ledger_nonneg _ st0 g' Hg Hrs) as Hpos.
  intros n p Hp Hn. simpl in Hp, Hn.
  rewrite lookup_fmap in Hp. unfold ledger_add in Hp.
  rewrite lookup_insert_ne in Hp by congruence.
  destruct (state_time st0 !! n) as [t|] eqn:E; [|discriminate].
  simpl in Hp. inversion Hp; subst p.
  pose proof (Hpos n t E) as Hnn. simpl in Hnn.
  apply Qle_shift_div_l; [exact Ht | lra].
Qed.

End LedgerShape.

(** ** The reduced statistics *)

Section StatisticsFacts.

Variable seeded : Z -> rng.
Variables arrival_rate service_rate simulation_time : Q.

Lemma statistics_fields st g r g' :
  statistics simulation_time st g = (Returned r, g') ->
  let done := List.filter (completed simulation_time) (customer_stats st) in
  let system_times := map (fun c => departure_time c - arrival_time c) done in
  let queue_times :=
    map (fun c => service_start_time c - arrival_time c) done in
  total_system_time r = py_sum system_times /\
  total_queue_time r = py_sum queue_times /\
  average_system_time r = mean_or_zero system_times /\
  average_queue_time r = mean_or_zero queue_times /\
  average_system_length r
  = weighted_sum inject_Z (state_time st) / simulation_time /\
  average_queue_length r
  = weighted_sum (fun n => inject_Z (Z.max 0 (n - 1))) (state_time st)
    / simulation_time.
Proof.
  unfold statistics. intros H.
  apply bind_Returned in H as (u & g1 & Hu & H).
  apply py_div_Returned in Hu as (_ & -> & ->).
  apply bind_Returned in H as (l & g2 & Hl & H).
  apply py_div_Returned in Hl as (_ & -> & ->).
  apply bind_Returned in H as (lq & g3 & Hlq & H).
  apply py_div_Returned in Hlq as (_ & -> & ->).
  apply ret_Returned in H as [<- <-]. simpl.
  repeat split; reflexivity.
Qed.

Lemma py_sum_shift l a : fold_left Qplus l a == a + py_sum l.
Proof.
  unfold py_sum. revert a. induction l as [|x l IH]; intros a; simpl.
  - ring.
  - rewrite IH, (IH (0 + x)). ring.
Qed.

Lemma py_sum_cons x l : py_sum (x :: l) == x + py_sum l.
Proof. unfold py_sum at 1. simpl. rewrite py_sum_shift. ring. Qed.





Lemma py_sum_nonneg l : Forall (fun x => 0 <= x) l -> 0 <= py_sum l.
Proof.
  induction 1 as [|x l Hx _ IH].
  - unfold py_sum. simpl. lra.
  - rewrite py_sum_cons. lra.
Qed.

Lemma py_sum_le (f h : customer -> Q) l :
  Forall (fun c => f c <= h c) l -> py_sum (map f l) <= py_sum (map h l).
Proof.
  induction 1 as [|c l Hc _ IH]; simpl.
  - lra.
  - rewrite !py_sum_cons. lra.
Qed.

(** X10. With non-negative variates the reported totals are ordered:
    [0 <= total_queue_time <= total_system_time]. *)
Theorem waiting_totals_ordered seed fuel g r g' :
  nonneg (start_rng seeded seed g) ->
  simulate_mm1_queue seeded arrival_rate service_rate simulation_time
    seed fuel g = (Returned r, g') ->
  0 <= total_queue_time r /\ total_queue_time r <= total_system_time r.
Proof.
  intros Hg H. apply simulate_Returned in H as (st & Hrun & Hstat).
  pose proof (statistics_fields st g' r g' Hstat) as Hf. cbv zeta in Hf.
  destruct Hf as (-> & -> & _).
  apply (run_time_inv seeded _ _ _ seed fuel g st g' Hg) in Hrun
    as (st0 & [_ _ _ Hrec] & ->). simpl.
  assert (Hdone : Forall well_timed
                    (List.filter (completed simulation_time)
                                 (customer_stats st0))).
  { rewrite Forall_forall in Hrec |- *. intros c Hc. apply Hrec.
    apply list_elem_of_In in Hc. apply List.filter_In in Hc as [Hc _].
    apply list_elem_of_In. exact Hc. }
  split.
  - apply py_sum_nonneg. apply Forall_map.
    eapply Forall_impl; [exact Hdone|]. intros c [H1 _]. simpl. lra.
  - apply py_sum_le.
    eapply Forall_impl; [exact Hdone|]. intros c [_ H2]. simpl. lra.
Qed.

(** *** Mean population and mean line length *)





End StatisticsFacts.

(** ** The distribution and its means; order of departures *)


Section Distribution.

Variable seeded : Z -> rng.
Variables arrival_rate service_rate simulation_time : Q.


Lemma sequential_lower_bound t l :
  sequential t l -> Forall (fun c => t <= departure_time c) l.
Proof.
  revert t. induction l as [|c l IH]; intros t Hseq; constructor.
  - destruct Hseq as (H1 & H2 & _). lra.
  - destruct Hseq as (H1 & H2 & H3).
    eapply Forall_impl; [exact (IH _ H3)|]. simpl. intros c' Hc'. lra.
Qed.

Lemma sequential_departures_sorted t l :
  sequential t l -> StronglySorted Qle (map departure_time l).
Proof.
  revert t. induction l as [|c l IH]; intros t Hseq; simpl.
  - constructor.
  - destruct Hseq as (_ & _ & H3). constructor.
    + exact (IH _ H3).
    + apply Forall_map. exact (sequential_lower_bound _ _ H3).
Qed.

Lemma sequential_none_completed t l :
  sequential t l -> simulation_time < t ->
  List.filter (completed simulation_time) l = [].
Proof.
  intros Hseq Ht. apply sequential_lower_bound in Hseq.
  induction Hseq as [|c l Hc _ IH]; [reflexivity|]. simpl.
  destruct (completed simulation_time c) eqn:E; [|exact IH].
  apply Qle_bool_iff in E. lra.
Qed.

Lemma sequential_completed_prefix t l :
  sequential t l ->
  let k := length (List.filter (completed simulation_time) l) in
  List.filter (completed simulation_time) l = take k l /\
  Forall (fun c => simulation_time < departure_time c) (drop k l).
Proof.
  revert t. induction l as [|c l IH]; intros t Hseq; simpl.
  - split; [reflexivity | constructor].
  - destruct Hseq as (H1 & H2 & H3).
    destruct (completed simulation_time c) eqn:E; simpl.
    + destruct (IH _ H3) as [Htake Hdrop]. split; [|exact Hdrop].
      f_equal. exact Htake.
    + assert (Hlate : simulation_time < departure_time c).
      { apply Qnot_le_lt. intros Hle. apply Qle_bool_iff in Hle.
        unfold completed in E. congruence. }
      rewrite (sequential_none_completed _ _ H3 Hlate). simpl.
      split; [reflexivity|]. constructor; [exact Hlate|].
      eapply Forall_impl; [exact (sequential_lower_bound _ _ H3)|].
      simpl. intros c' Hc'. lra.
Qed.

(** X23. With non-negative variates customers leave in the order they
    were served: the departure times of the records are non-decreasing,
    so the completed customers are exactly the first
    [completed_customers] records and every record after them departs
    after the horizon. *)
Theorem departures_in_order seed fuel g r g' :
  nonneg (start_rng seeded seed g) ->
  simulate_mm1_queue seeded arrival_rate service_rate simulation_time
    seed fuel g = (Returned r, g') ->
  exists st,
    run_engine seeded arrival_rate service_rate simulation_time seed fuel g
    = (Returned st, g') /\
    StronglySorted Qle (map departure_time (customer_stats st)) /\
    List.filter (completed simulation_time) (customer_stats st)
    = take (completed_customers r) (customer_stats st) /\
    Forall (fun c => simulation_time < departure_time c)
           (drop (completed_customers r) (customer_stats st)).
Proof.
  intros Hg H. apply simulate_Returned in H as (st & Hrun & Hstat).
  exists st. split; [exact Hrun|].
  apply statistics_Returned in Hstat as (_ & _ & _ & -> & _).
  apply run_engine_run_state in Hrun as (st0 & Hrs & _ & ->). simpl.
  destruct (run_state_service_inv _ _ _ _ st0 g' Hg Hrs) as [Hseq _].
  split; [exact (sequential_departures_sorted _ _ Hseq)|].
  exact (sequential_completed_prefix _ _ Hseq).
Qed.

End Distribution.

(** ** Valid calls and edge cases *)

Section Edges.

Variable seeded : Z -> rng.
Variables arrival_rate service_rate simulation_time : Q.

Lemma event_loop_never_raises fuel st g e g' :
  0 < arrival_rate -> 0 < service_rate ->
  event_loop arrival_rate service_rate simulation_time fuel st g
  <> (Raised e, g').
Proof.
  intros Hl Hm. revert st g.
  induction fuel as [|fuel IH]; intros st g; simpl;
    destruct (Qlt_bool (current_time st) simulation_time); try discriminate.
  unfold mbind, M_bind.
  destruct (iteration_returns arrival_rate service_rate Hl Hm st g)
    as (st1 & g1 & ->).
  apply IH.
Qed.

(** X12. With a seed numpy accepts (or none), positive rates and a
    horizon other than 0, the call raises no exception, whatever the
    variates are. *)
Theorem valid_call_never_raises seed fuel g e g' :
  seed_ok seed ->
  0 < arrival_rate -> 0 < service_rate -> ~ simulation_time == 0 ->
  simulate_mm1_queue seeded arrival_rate service_rate simulation_time
    seed fuel g <> (Raised e, g').
Proof.
  intros Hseed Hl Hm Hnz.
  rewrite simulate_unfold, sample_pos by assumption.
  destruct (event_loop arrival_rate service_rate simulation_time fuel _ _)
    as [[st|e0|] g2] eqn:E.
  - destruct (statistics_nonzero_horizon simulation_time
                (final_update simulation_time st) g2 Hnz) as (r & ->).
    discriminate.
  - exfalso. exact (event_loop_never_raises _ _ _ _ _ Hl Hm E).
  - discriminate.
Qed.

(** X13. With valid parameters and variates that are all at least
    [delta > 0], the loop ends: the call returns a result as soon as it
    is allowed more iterations than [potential] of the initial state,
    three for every inter-arrival gap of length [delta / arrival_rate]
    that fits between the first arrival and the horizon. *)
Theorem valid_call_returns_within_bound seed fuel g delta :
  seed_ok seed ->
  0 < arrival_rate -> 0 < service_rate -> ~ simulation_time == 0 ->
  0 < delta ->
  at_least delta (start_rng seeded seed g) ->
  let g0 := start_rng seeded seed g in
  let st0 := initial_state (1 / arrival_rate * g0 0%nat) in
  (potential arrival_rate simulation_time delta st0 < fuel)%nat ->
  exists r g',
    simulate_mm1_queue seeded arrival_rate service_rate simulation_time
      seed fuel g = (Returned r, g').
Proof.
  intros Hseed Hl Hm Hnz Hdelta Hg g0 st0 Hfuel.
  rewrite simulate_unfold, sample_pos by assumption. fold g0 st0.
  destruct (event_loop_terminates arrival_rate service_rate simulation_time
              delta Hl Hm Hdelta fuel st0 (fun k => g0 (S k)))
    as (st & g' & ->).
  - apply initial_engine_inv.
  - intros k. apply Hg.
  - exact Hfuel.
  - destruct (statistics_nonzero_horizon simulation_time
                (final_update simulation_time st) g' Hnz) as (r & Hr).
    exists r, g'. exact Hr.
Qed.

(** X14. With non-negative variates and a positive horizon the reported
    busy time does not exceed the horizon, so the reported utilization
    is at most 1. *)
Theorem busy_time_at_most_horizon seed fuel g r g' :
  nonneg (start_rng seeded seed g) ->
  0 < simulation_time ->
  simulate_mm1_queue seeded arrival_rate service_rate simulation_time
    seed fuel g = (Returned r, g') ->
  server_busy_time r <= simulation_time /\ server_utilization r <= 1.
Proof.
  intros Hg Ht H.
  pose proof (utilization_at_most_one seeded arrival_rate service_rate
                simulation_time seed fuel g r g' Hg Ht H) as Hu.
  split; [|exact Hu].
  apply simulate_Returned in H as (st & _ & Hstat).
  apply statistics_Returned in Hstat as (_ & _ & _ & _ & Hb & Hutil & _).
  rewrite Hutil in Hu. rewrite Hb.
  assert (Hmul : busy_time simulation_time st / simulation_time
                 * simulation_time == busy_time simulation_time st).
  { field. lra. }
  nra.
Qed.

(** X15. Throughout a run the population count is the length of the
    waiting line plus one when the server is busy; in particular it is
    0 exactly when the server is idle. *)
Theorem population_is_line_plus_service st :
  reachable arrival_rate service_rate simulation_time st ->
  current_state st
  = (Z.of_nat (length (queue st)) + (if server_busy st then 1 else 0))%Z /\
  (current_state st = 0%Z <-> server_busy st = false).
Proof.
  intros Hreach. apply reachable_engine_inv in Hreach as [_ _ Hline Hc].
  split; [exact Hc|]. rewrite Hc.
  destruct (server_busy st) eqn:E.
  - split; [lia | discriminate].
  - rewrite (Hline eq_refl). simpl. tauto.
Qed.

(** X16. With a negative horizon the loop is not entered and the
    service rate is never looked at: the call returns a result with no
    customers, every total and average 0, and the whole probability on
    population 0. *)
Theorem negative_horizon_result seed fuel g :
  seed_ok seed ->
  0 < arrival_rate -> simulation_time < 0 ->
  exists r p0,
    simulate_mm1_queue seeded arrival_rate service_rate simulation_time
      seed fuel g
    = (Returned r, fun k => start_rng seeded seed g (S k)) /\
    total_customers r = 0%nat /\ completed_customers r = 0%nat /\
    total_system_time r = 0 /\ total_queue_time r = 0 /\
    average_system_time r = 0 /\ average_queue_time r = 0 /\
    server_busy_time r = 0 /\
    server_utilization r == 0 /\
    average_system_length r == 0 /\ average_queue_length r == 0 /\
    state_probabilities r !! 0%Z = Some p0 /\ p0 == 1 /\
    forall n, n <> 0%Z -> state_probabilities r !! n = None.
Proof.
  intros Hseed Hl Ht.
  rewrite simulate_unfold, sample_pos by assumption.
  rewrite event_loop_not_entered by (simpl; lra).
  set (first := 1 / arrival_rate * start_rng seeded seed g 0%nat).
  clearbody first.
  match goal with
  | |- context [statistics _ ?st ?h] =>
    destruct (statistics_nonzero_horizon simulation_time st h ltac:(lra))
      as (r & Hr)
  end.
  pose proof (statistics_Returned _ _ _ _ _ Hr)
    as (_ & _ & Htot & Hcomp & Hbusy & Hu & Hp).
  pose proof (statistics_fields _ _ _ _ _ Hr) as Hf. cbv zeta in Hf.
  destruct Hf as (Hts & Htq & Has & Haq & Hl1 & Hl2).
  simpl in *.
  assert (Hledger : ledger_add {[ 0%Z := 0 ]} 0 (simulation_time - 0)
                    = {[ 0%Z := 0 + (simulation_time - 0) ]}).
  { unfold ledger_add, dict_get. rewrite lookup_singleton_eq. simpl.
    apply insert_singleton_eq. }
  rewrite Hledger in *.
  exists r. eexists. split; [exact Hr|].
  rewrite Htot, Hcomp, Hts, Htq, Has, Haq, Hbusy, Hu, Hl1, Hl2, Hp.
  unfold busy_time, weighted_sum. simpl.
  rewrite !map_fold_singleton, map_fmap_singleton.
  change (inject_Z (Z.max 0 (0 - 1))) with 0. change (inject_Z 0) with 0.
  do 7 (split; [reflexivity|]).
  split; [unfold Qdiv; ring|].
  split; [unfold Qdiv; ring|].
  split; [unfold Qdiv; ring|].
  split; [apply lookup_singleton_eq|].
  split; [field; lra|].
  intros n Hn. apply lookup_singleton_ne. congruence.
Qed.

(** X17. When the first inter-arrival sample exceeds a positive
    horizon, that arrival is processed all the same: the result counts
    one customer, none completed, waiting averages of 0, a mean line
    length of 0 and a negative mean population
    [(simulation_time - first) / simulation_time]. *)
Theorem first_arrival_after_horizon_result seed fuel g :
  seed_ok seed ->
  let g0 := start_rng seeded seed g in
  let first := 1 / arrival_rate * g0 0%nat in
  0 < arrival_rate -> 0 < service_rate -> 0 < simulation_time ->
  simulation_time < first -> 0 <= g0 2%nat ->
  exists r g',
    simulate_mm1_queue seeded arrival_rate service_rate simulation_time
      seed (S fuel) g = (Returned r, g') /\
    total_customers r = 1%nat /\ completed_customers r = 0%nat /\
    average_system_time r = 0 /\ average_queue_time r = 0 /\
    average_queue_length r == 0 /\
    average_system_length r == (simulation_time - first) / simulation_time /\
    average_system_length r < 0.
Proof.
  intros Hseed g0 first Hl Hm Ht Hfirst Hdraw.
  pose proof (duration_nonneg service_rate (g0 2%nat) Hm Hdraw) as Hs.
  rewrite simulate_unfold, sample_pos by assumption. fold g0 first.
  rewrite event_loop_entered by (simpl; exact Ht).
  unfold mbind at 1, M_bind at 1.
  rewrite first_iteration by assumption. cbv zeta.
  rewrite event_loop_not_entered by (simpl; lra).
  set (s := 1 / service_rate * g0 2%nat) in *.
  clearbody s first.
  match goal with
  | |- context [statistics _ ?st ?h] =>
    destruct (statistics_nonzero_horizon simulation_time st h ltac:(lra))
      as (r & Hr)
  end.
  pose proof (statistics_Returned _ _ _ _ _ Hr)
    as (_ & _ & Htot & Hcomp & _).
  pose proof (statistics_fields _ _ _ _ _ Hr) as Hf. cbv zeta in Hf.
  destruct Hf as (_ & _ & Has & Haq & Hl1 & Hl2).
  assert (Hlate : completed simulation_time (Customer first first (first + s))
                  = false).
  { unfold completed. simpl departure_time.
    destruct (Qle_bool (first + s) simulation_time) eqn:E; [|reflexivity].
    apply Qle_bool_iff in E. lra. }
  cbn [final_update customer_stats state_time current_state last_event_time
       List.filter] in *.
  rewrite Hlate in *. cbn [map length] in *.
  assert (Hledger :
    ledger_add (ledger_add {[ 0%Z := 0 ]} 0 (first - 0)) 1
               (simulation_time - first)
    = <[ 1%Z := 0 + (simulation_time - first) ]>
        {[ 0%Z := 0 + (first - 0) ]}).
  { unfold ledger_add at 1, dict_get at 1.
    assert (Hinner : ledger_add {[ 0%Z := 0 ]} 0 (first - 0)
                     = {[ 0%Z := 0 + (first - 0) ]}).
    { unfold ledger_add, dict_get. rewrite lookup_singleton_eq. simpl.
      apply insert_singleton_eq. }
    rewrite Hinner, lookup_singleton_ne by discriminate. reflexivity. }
  rewrite Hledger in Hl1, Hl2.
  exists r. eexists. split; [exact Hr|].
  rewrite Htot, Hcomp, Has, Haq, Hl1, Hl2.
  assert (Hfresh : ({[ 0%Z := 0 + (first - 0) ]} : gmap Z Q) !! 1%Z = None).
  { apply lookup_singleton_ne. discriminate. }
  split; [reflexivity|]. split; [reflexivity|].
  split; [reflexivity|]. split; [reflexivity|].
  split; [|split].
  - rewrite (weighted_sum_insert_fresh _ _ _ _ Hfresh).
    unfold weighted_sum. rewrite map_fold_singleton.
    change (inject_Z (Z.max 0 (1 - 1))) with 0.
    change (inject_Z (Z.max 0 (0 - 1))) with 0.
    unfold Qdiv. ring.
  - rewrite (weighted_sum_insert_fresh _ _ _ _ Hfresh).
    unfold weighted_sum. rewrite map_fold_singleton.
    change (inject_Z 1) with 1. change (inject_Z 0) with 0.
    field. lra.
  - rewrite (weighted_sum_insert_fresh _ _ _ _ Hfresh).
    unfold weighted_sum. rewrite map_fold_singleton.
    change (inject_Z 1) with 1. change (inject_Z 0) with 0.
    apply Qlt_shift_div_r; [exact Ht | lra].
Qed.

End Edges.

(** ** The reporting wrapper *)

Lemma fold_max_ge l x : (x <= fold_left Z.max l x)%Z.
Proof.
  revert x. induction l as [|y l IH]; intros x; simpl; [lia|].
  specialize (IH (Z.max x y)). lia.
Qed.

Lemma fold_max_bounds l x :
  let m := fold_left Z.max l x in
  Forall (fun y => (y <= m)%Z) (x :: l) /\ m ∈ x :: l.
Proof.
  revert x. induction l as [|y l IH]; intros x; simpl.
  - split; [repeat constructor; lia | apply list_elem_of_here].
  - destruct (IH (Z.max x y)) as [Hall Hin]. simpl in *.
    apply Forall_cons in Hall as [Hxy Hall].
    split.
    + constructor; [lia|]. constructor; [lia | exact Hall].
    + apply elem_of_cons in Hin as [Hin|Hin].
      * destruct (Z.max_spec x y) as [[_ Hm]|[_ Hm]]; rewrite Hin, Hm.
        -- apply list_elem_of_further, list_elem_of_here.
        -- apply list_elem_of_here.
      * apply list_elem_of_further, list_elem_of_further. exact Hin.
Qed.

Lemma elem_of_dict_keys (d : gmap Z Q) n :
  n ∈ dict_keys d <-> is_Some (d !! n).
Proof.
  unfold dict_keys. rewrite list_elem_of_fmap. split.
  - intros ([k v] & -> & Hkv). apply elem_of_map_to_list in Hkv.
    simpl. eauto.
  - intros [v Hv]. exists (n, v). split; [reflexivity|].
    apply elem_of_map_to_list. exact Hv.
Qed.

(** [max] of the keys of a ledger whose keys are [0..m]. *)
Lemma py_max_contiguous (d : gmap Z Q) m g :
  (0 <= m)%Z ->
  (forall n, is_Some (d !! n) <-> (0 <= n <= m)%Z) ->
  py_max (dict_keys d) g = (Returned m, g).
Proof.
  intros Hm Hkeys. unfold py_max.
  destruct (dict_keys d) as [|x l] eqn:E.
  - exfalso. assert (Hin : m ∈ dict_keys d).
    { apply elem_of_dict_keys, Hkeys. lia. }
    rewrite E in Hin. inversion Hin.
  - destruct (fold_max_bounds l x) as [Hall Hin]. simpl in Hall, Hin.
    rewrite <- E in Hall, Hin.
    assert (Hle : (fold_left Z.max l x <= m)%Z).
    { apply elem_of_dict_keys, Hkeys in Hin. lia. }
    assert (Hge : (m <= fold_left Z.max l x)%Z).
    { rewrite Forall_forall in Hall. apply Hall.
      apply elem_of_dict_keys, Hkeys. lia. }
    unfold mret, M_ret. do 2 f_equal. lia.
Qed.

Lemma elem_of_py_range n i : i ∈ py_range n <-> (0 <= i < n)%Z.
Proof.
  unfold py_range. rewrite list_elem_of_fmap. split.
  - intros (k & -> & Hk). apply list_elem_of_In, in_seq in Hk. lia.
  - intros Hi. exists (Z.to_nat i). split; [lia|].
    apply list_elem_of_In, in_seq. lia.
Qed.

Section WrapperFacts.

Variable seeded : Z -> rng.
Variables arrival_rate service_rate simulation_time : Q.

(** X18. When [run_mm1_simulation] returns, it returns the result of
    [simulate_mm1_queue] unchanged, [max] found a largest population
    count [m], and the table it prints has one row for each of
    [0, ..., m] in increasing order, each row showing the probability
    stored for that count: the default of [get(i, 0)] is never used. *)
Theorem report_table_lists_every_count seed fuel g r rep g' :
  run_mm1_simulation seeded arrival_rate service_rate simulation_time
    seed fuel g = (Returned (r, rep), g') ->
  simulate_mm1_queue seeded arrival_rate service_rate simulation_time
    seed fuel g = (Returned r, g') /\
  exists m : Z,
    (0 <= m)%Z /\
    (state_rows rep).*1 = py_range (m + 1) /\
    (forall i p,
       (i, p) ∈ state_rows rep <-> state_probabilities r !! i = Some p).
Proof.
  unfold run_mm1_simulation. intros H.
  apply bind_Returned in H as (res & g1 & Hsim & H).
  apply bind_Returned in H as (rho & g2 & Hrho & H).
  apply py_div_Returned in Hrho as (_ & -> & ->).
  apply bind_Returned in H as (mx & g3 & Hmax & H).
  apply ret_Returned in H as [H <-]. inversion H; subst r rep. clear H.
  assert (Hcont : exists m : Z,
            (0 <= m)%Z /\
            forall n, is_Some (state_probabilities res !! n)
                      <-> (0 <= n <= m)%Z).
  { pose proof Hsim as Hs.
    apply simulate_Returned in Hs as (st & Hrun & Hstat).
    apply statistics_Returned in Hstat as (_ & _ & _ & _ & _ & _ & ->).
    apply run_engine_reachable in Hrun as (st0 & Hreach & _ & ->).
    pose proof (reachable_engine_inv _ _ _ st0 Hreach) as Hinv.
    apply count_nonneg in Hinv.
    apply reachable_keys_inv in Hreach as (m & Hm & Hkeys & Hcs).
    exists (Z.max m (current_state st0)). split; [lia|].
    intros n. rewrite lookup_fmap, fmap_is_Some. simpl.
    apply keys_after_add; [exact Hkeys | lia]. }
  destruct Hcont as (m & Hm & Hkeys).
  rewrite (py_max_contiguous _ m g1 Hm Hkeys) in Hmax.
  inversion Hmax; subst mx g3.
  split; [exact Hsim|]. exists m. split; [exact Hm|]. simpl. split.
  - rewrite <- list_fmap_compose. apply list_fmap_id.
  - intros i p. rewrite list_elem_of_fmap. split.
    + intros (j & Hj & Hin). inversion Hj; subst i p.
      apply elem_of_py_range in Hin.
      destruct (proj2 (Hkeys j) ltac:(lia)) as [v Hv].
      unfold dict_get. rewrite Hv. reflexivity.
    + intros Hp. exists i. split.
      * unfold dict_get. rewrite Hp. reflexivity.
      * apply elem_of_py_range.
        assert (Hi : is_Some (state_probabilities res !! i)) by eauto.
        apply Hkeys in Hi. lia.
Qed.

(** X19. With a negative horizon the simulation itself never looks at
    the service rate, but the wrapper divides by it for the traffic
    intensity it prints: a service rate of 0 makes
    [run_mm1_simulation] raise [ZeroDivisionError] after the simulation
    has returned. *)
Theorem wrapper_divides_by_service_rate seed fuel g :
  seed_ok seed ->
  0 < arrival_rate -> simulation_time < 0 -> service_rate == 0 ->
  (exists r,
     simulate_mm1_queue seeded arrival_rate service_rate simulation_time
       seed fuel g
     = (Returned r, fun k => start_rng seeded seed g (S k))) /\
  run_mm1_simulation seeded arrival_rate service_rate simulation_time
    seed fuel g
  = (Raised ZeroDivisionError, fun k => start_rng seeded seed g (S k)).
Proof.
  intros Hseed Hl Ht Hm.
  assert (Hsim : exists r,
            simulate_mm1_queue seeded arrival_rate service_rate
              simulation_time seed fuel g
            = (Returned r, fun k => start_rng seeded seed g (S k))).
  { rewrite simulate_unfold, sample_pos by assumption.
    rewrite event_loop_not_entered by (simpl; lra).
    apply statistics_nonzero_horizon. lra. }
  destruct Hsim as (r & Hr).
  split; [exists r; exact Hr|].
  unfold run_mm1_simulation, mbind, M_bind. rewrite Hr.
  unfold py_div. apply Qeq_bool_iff in Hm. rewrite Hm. reflexivity.
Qed.

End WrapperFacts.

(** ** The analysis script *)

Section AnalysisFacts.

Variable seeded : Z -> rng.

(** What the script records for one scenario, were the scenario run on
    its own from generator state [h]. *)
Let alone (horizon : Q) (s : Z) (fuel : nat) (h : rng)
    (sc : Analysis.scenario) (w : Q) : Prop :=
  exists r,
    (simulate_mm1_queue seeded (Analysis.arrival_rate sc)
       (Analysis.service_rate sc) horizon (Some s) fuel h).1 = Returned r /\
    w = average_queue_time r.

Lemma scenario_loop_Returned todo horizon s fuel rhos0 wqs0 g rhos wqs g' :
  Analysis.scenario_loop seeded todo horizon s fuel rhos0 wqs0 g
  = (Returned (rhos, wqs), g') ->
  exists wqs1,
    rhos = rhos0
           ++ map (fun sc => Analysis.arrival_rate sc / Analysis.service_rate sc)
                  todo /\
    wqs = wqs0 ++ wqs1 /\
    forall h, Forall2 (alone horizon s fuel h) todo wqs1.
Proof.
  revert rhos0 wqs0 g. induction todo as [|sc rest IH];
    intros rhos0 wqs0 g H; simpl in H.
  - apply ret_Returned in H as [H _]. inversion H; subst.
    exists []. rewrite !app_nil_r. repeat split. intros h. constructor.
  - apply bind_Returned in H as (rho & g1 & Hrho & H).
    apply py_div_Returned in Hrho as (_ & -> & ->).
    apply bind_Returned in H as (res & g2 & Hsim & H).
    apply IH in H as (wqs1 & -> & -> & Hrest).
    exists (average_queue_time res :: wqs1).
    rewrite <- !app_assoc. simpl. repeat split.
    intros h. constructor; [|apply Hrest].
    exists res. split; [|reflexivity].
    rewrite (seed_resets seeded _ _ _ s fuel h g), Hsim. reflexivity.
Qed.

(** X20. The scenarios of the analysis loop do not influence one
    another: when the loop completes, [rhos] holds
    [arrival_rate / service_rate] of each scenario in order, and
    [sim_wqs] holds for each scenario the [average_queue_time] that a
    call for that scenario alone returns, whatever state the generator
    is in before it, because every call reseeds. *)
Theorem scenarios_do_not_interfere todo horizon s fuel g rhos wqs g' :
  Analysis.run_scenarios seeded todo horizon s fuel g
  = (Returned (rhos, wqs), g') ->
  rhos = map (fun sc => Analysis.arrival_rate sc / Analysis.service_rate sc)
             todo /\
  forall h,
    Forall2
      (fun sc w =>
         exists r,
           (simulate_mm1_queue seeded (Analysis.arrival_rate sc)
              (Analysis.service_rate sc) horizon (Some s) fuel h).1
           = Returned r /\
           w = average_queue_time r)
      todo wqs.
Proof.
  unfold Analysis.run_scenarios. intros H.
  apply scenario_loop_Returned in H as (wqs1 & -> & -> & Hall).
  split; [reflexivity|]. exact Hall.
Qed.

End AnalysisFacts.

(** *** The theoretical curve *)

Lemma wq_increasing m rho1 rho2 :
  0 < m -> 0 <= rho1 -> rho1 < rho2 -> rho2 < 1 ->
  0 <= Analysis.wq m rho1 /\ Analysis.wq m rho1 < Analysis.wq m rho2.
Proof.
  intros Hm H1 H12 H2. unfold Analysis.wq.
  assert (Hd1 : 0 < m * (1 - rho1)) by nra.
  assert (Hd2 : 0 < m * (1 - rho2)) by nra.
  split.
  - apply Qle_shift_div_l; [exact Hd1 | lra].
  - apply Qlt_shift_div_l; [exact Hd2|].
    assert (Heq : rho1 / (m * (1 - rho1)) * (m * (1 - rho2))
                  == rho1 * (1 - rho2) / (1 - rho1)).
    { field. split; lra. }
    rewrite Heq. apply Qlt_shift_div_r; [lra | nra].
Qed.

Lemma StronglySorted_map_seq (f : nat -> Q) a n :
  (forall i j, (a <= i < j)%nat -> (j < a + n)%nat -> f i < f j) ->
  StronglySorted Qlt (map f (seq a n)).
Proof.
  revert a. induction n as [|n IH]; intros a Hf; simpl.
  - constructor.
  - constructor.
    + apply IH. intros i j Hij Hj. apply Hf; lia.
    + apply Forall_forall. intros y Hy.
      apply list_elem_of_In, in_map_iff in Hy as (j & <- & Hj).
      apply in_seq in Hj. apply Hf; lia.
Qed.

Lemma StronglySorted_map_wq m l :
  0 < m ->
  Forall (fun rho => 0 <= rho /\ rho < 1) l ->
  StronglySorted Qlt l ->
  StronglySorted Qlt (map (Analysis.wq m) l).
Proof.
  intros Hm Hall Hs. induction Hs as [|x l Hs IH Hx]; simpl.
  - constructor.
  - apply Forall_cons in Hall as [[Hx0 Hx1] Hall]. constructor.
    + apply IH. exact Hall.
    + rewrite Forall_forall in Hx, Hall |- *. intros y Hy.
      apply list_elem_of_In, in_map_iff in Hy as (rho & <- & Hrho).
      apply list_elem_of_In in Hrho.
      destruct (Hall rho Hrho) as [_ Hr1].
      apply wq_increasing; [exact Hm | exact Hx0 | exact (Hx rho Hrho) | exact Hr1].
Qed.

Lemma linspace_point start stop num i :
  start < stop -> (2 <= num)%nat -> (i < num)%nat ->
  let step := (stop - start) / inject_Z (Z.of_nat (num - 1)) in
  0 < step /\
  start <= start + inject_Z (Z.of_nat i) * step /\
  start + inject_Z (Z.of_nat i) * step <= stop.
Proof.
  intros Hlt Hnum Hi step.
  assert (Hn : 0 < inject_Z (Z.of_nat (num - 1))).
  { change 0 with (inject_Z 0). rewrite <- Zlt_Qlt. lia. }
  assert (Hstep : 0 < step).
  { unfold step. apply Qlt_shift_div_l; [exact Hn | lra]. }
  assert (Hi0 : 0 <= inject_Z (Z.of_nat i)).
  { change 0 with (inject_Z 0). rewrite <- Zle_Qle. lia. }
  assert (Hin : inject_Z (Z.of_nat i) <= inject_Z (Z.of_nat (num - 1))).
  { rewrite <- Zle_Qle. lia. }
  assert (Hfull : inject_Z (Z.of_nat (num - 1)) * step == stop - start).
  { unfold step. field. lra. }
  split; [exact Hstep|]. split; nra.
Qed.

(** X21. The theoretical curve the script plots is well defined and
    rises: for a service rate [m > 0] and a grid
    [np.linspace(start, stop, num)] with [0 <= start < stop < 1] and at
    least two points, the grid has [num] strictly increasing points in
    [[start, stop]], no point makes the denominator [m * (1 - rho)]
    vanish, and [rho / (m * (1 - rho))] is non-negative and strictly
    increasing along the grid. *)
Theorem theoretical_curve_rises m start stop num :
  0 < m -> 0 <= start -> start < stop -> stop < 1 -> (2 <= num)%nat ->
  let grid := Analysis.linspace start stop num in
  let curve := Analysis.wq_theoretical m grid in
  length grid = num /\ length curve = num /\
  Forall (fun rho => start <= rho /\ rho <= stop /\ 0 < m * (1 - rho)) grid /\
  StronglySorted Qlt grid /\
  Forall (fun w => 0 <= w) curve /\
  StronglySorted Qlt curve.
Proof.
  intros Hm H0 Hlt H1 Hnum grid curve.
  assert (Hgrid : Forall (fun rho => start <= rho /\ rho <= stop) grid).
  { unfold grid, Analysis.linspace. apply Forall_forall. intros y Hy.
    apply list_elem_of_In, in_map_iff in Hy as (i & <- & Hi).
    apply in_seq in Hi.
    destruct (linspace_point start stop num i Hlt Hnum ltac:(lia))
      as (_ & Hlo & Hhi).
    split; assumption. }
  assert (Hsorted : StronglySorted Qlt grid).
  { unfold grid, Analysis.linspace. apply StronglySorted_map_seq.
    intros i j Hij Hj.
    destruct (linspace_point start stop num i Hlt Hnum ltac:(lia))
      as (Hstep & _).
    assert (Hlt' : inject_Z (Z.of_nat i) < inject_Z (Z.of_nat j)).
    { rewrite <- Zlt_Qlt. lia. }
    nra. }
  assert (Hunit : Forall (fun rho => 0 <= rho /\ rho < 1) grid).
  { eapply Forall_impl; [exact Hgrid|]. simpl. intros rho [Ha Hb]. lra. }
  unfold curve, Analysis.wq_theoretical.
  split; [unfold grid, Analysis.linspace; rewrite length_map, length_seq;
          reflexivity|].
  split; [rewrite length_map; unfold grid, Analysis.linspace;
          rewrite length_map, length_seq; reflexivity|].
  split.
  { eapply Forall_impl; [exact Hgrid|]. simpl. intros rho [Ha Hb].
    split; [exact Ha | split; [exact Hb | nra]]. }
  split; [exact Hsorted|]. split.
  - apply Forall_map. eapply Forall_impl; [exact Hunit|]. simpl.
    intros rho [Ha Hb]. unfold Analysis.wq.
    apply Qle_shift_div_l; [nra | lra].
  - apply StronglySorted_map_wq; assumption.
Qed.

(** ** The further theorems at concrete runs *)

Lemma clock_never_runs_backwards_witness :
  exists st' g',
    iteration 2 1 (initial_state (1 / 2 * unit_draws 0%nat))
      (fun k => unit_draws (S k)) = (Returned st', g') /\
    current_time (initial_state (1 / 2 * unit_draws 0%nat))
    <= current_time st' /\
    last_event_time st' = current_time st'.
Proof.
  eexists. eexists. split; [vm_compute; reflexivity|].
  eapply (clock_never_runs_backwards 2 1 3 unit_draws).
  - intros k. discriminate.
  - apply run_state_init. reflexivity.
  - vm_compute. reflexivity.
Defined.

Lemma final_update_takes_time_away_witness :
  exists r g',
    congested_run = (Returned r, g') /\
    exists st0,
      congested_engine = (Returned (final_update 3 st0), g') /\
      3 - last_event_time st0 <= 0 /\
      dict_get (state_time (final_update 3 st0)) (current_state st0)
      <= dict_get (state_time st0) (current_state st0) /\
      (0 < 3 -> (1 <= total_customers r)%nat).
Proof.
  eexists. eexists. split; [vm_compute; reflexivity|].
  apply (final_update_takes_time_away (fun _ => unit_draws) 2 1 3
           (Some 42%Z) 20%nat long_draws).
  vm_compute. reflexivity.
Defined.

Lemma first_come_first_served_witness :
  exists st g',
    congested_engine = (Returned st, g') /\
    StronglySorted Qle (map arrival_time (customer_stats st) ++ queue st).
Proof.
  eexists. eexists. split; [vm_compute; reflexivity|].
  eapply (first_come_first_served (fun _ => unit_draws) 2 1 3 (Some 42%Z)
            20%nat long_draws).
  - intros k. discriminate.
  - vm_compute. reflexivity.
Defined.

Lemma service_starts_follow_lindley_witness :
  exists st g',
    congested_engine = (Returned st, g') /\
    (forall c,
       customer_stats st !! 0%nat = Some c ->
       service_start_time c == Qmax 0 (arrival_time c)) /\
    (forall i c1 c2,
       customer_stats st !! i = Some c1 ->
       customer_stats st !! S i = Some c2 ->
       service_start_time c2 == Qmax (departure_time c1) (arrival_time c2)).
Proof.
  eexists. eexists. split; [vm_compute; reflexivity|].
  eapply (service_starts_follow_lindley (fun _ => unit_draws) 2 1 3
            (Some 42%Z) 20%nat long_draws).
  - intros k. discriminate.
  - vm_compute. reflexivity.
Defined.

Lemma variates_consumed_witness :
  exists r g',
    congested_run = (Returned r, g') /\
    exists st,
      congested_engine = (Returned st, g') /\
      forall i,
        g' i = start_rng (fun _ => unit_draws) (Some 42%Z) long_draws
                 (i + (1 + 2 * total_customers r + length (queue st)))%nat.
Proof.
  eexists. eexists. split; [vm_compute; reflexivity|].
  apply (variates_consumed (fun _ => unit_draws) 2 1 3 (Some 42%Z) 20%nat
           long_draws).
  vm_compute. reflexivity.
Defined.

Lemma reported_counts_are_contiguous_witness :
  exists r g',
    congested_run = (Returned r, g') /\
    exists m : Z,
      (0 <= m)%Z /\
      forall n, is_Some (state_probabilities r !! n) <-> (0 <= n <= m)%Z.
Proof.
  eexists. eexists. split; [vm_compute; reflexivity|].
  eapply (reported_counts_are_contiguous (fun _ => unit_draws) 2 1 3
            (Some 42%Z) 20%nat long_draws).
  vm_compute. reflexivity.
Defined.

Lemma only_final_count_can_be_negative_witness :
  exists r g',
    congested_run = (Returned r, g') /\
    exists st,
      congested_engine = (Returned st, g') /\
      forall n p,
        state_probabilities r !! n = Some p ->
        n <> current_state st -> 0 <= p.
Proof.
  eexists. eexists. split; [vm_compute; reflexivity|].
  apply (only_final_count_can_be_negative (fun _ => unit_draws) 2 1 3
           (Some 42%Z) 20%nat long_draws).
  - intros k. discriminate.
  - reflexivity.
  - vm_compute. reflexivity.
Defined.



Lemma waiting_totals_ordered_witness :
  exists r g',
    congested_run = (Returned r, g') /\
    0 <= total_queue_time r /\ total_queue_time r <= total_system_time r.
Proof.
  eexists. eexists. split; [vm_compute; reflexivity|].
  eapply (waiting_totals_ordered (fun _ => unit_draws) 2 1 3 (Some 42%Z)
            20%nat long_draws).
  - intros k. discriminate.
  - vm_compute. reflexivity.
Defined.


Lemma valid_call_never_raises_witness :
  congested_run <> (Raised ValueError, unit_draws).
Proof.
  apply (valid_call_never_raises (fun _ => unit_draws) 2 1 3 (Some 42%Z)
           20%nat long_draws).
  - reflexivity.
  - reflexivity.
  - reflexivity.
  - discriminate.
Defined.

Lemma valid_call_returns_within_bound_witness :
  exists r g', congested_run = (Returned r, g').
Proof.
  apply (valid_call_returns_within_bound (fun _ => unit_draws) 2 1 3
           (Some 42%Z) 20%nat long_draws 1).
  - reflexivity.
  - reflexivity.
  - reflexivity.
  - discriminate.
  - reflexivity.
  - intros k. discriminate.
  - vm_compute. lia.
Defined.

Lemma busy_time_at_most_horizon_witness :
  exists r g',
    congested_run = (Returned r, g') /\
    server_busy_time r <= 3 /\ server_utilization r <= 1.
Proof.
  eexists. eexists. split; [vm_compute; reflexivity|].
  eapply (busy_time_at_most_horizon (fun _ => unit_draws) 2 1 3 (Some 42%Z)
            20%nat long_draws).
  - intros k. discriminate.
  - reflexivity.
  - vm_compute. reflexivity.
Defined.

(** The invariant at states the loop reaches after events: with rates
    1 and 2, after an arrival and the departure that follows (nobody in
    the system); with rates 2 and 1, after three arrivals (one customer
    in service, two waiting). *)
Lemma population_is_line_plus_service_witness :
  exists st1 g1 st2 g2 st3 g3 st4 g4 st5 g5,
    iteration 1 2 (initial_state 1) unit_draws = (Returned st1, g1) /\
    iteration 1 2 st1 g1 = (Returned st2, g2) /\
    iteration 2 1 (initial_state (1 # 2)) unit_draws = (Returned st3, g3) /\
    iteration 2 1 st3 g3 = (Returned st4, g4) /\
    iteration 2 1 st4 g4 = (Returned st5, g5) /\
    (current_state st2 = 0%Z /\ server_busy st2 = false) /\
    (current_state st5 = 3%Z /\ server_busy st5 = true
     /\ length (queue st5) = 2%nat) /\
    (current_state st2
     = (Z.of_nat (length (queue st2))
        + (if server_busy st2 then 1 else 0))%Z /\
     (current_state st2 = 0%Z <-> server_busy st2 = false)) /\
    (current_state st5
     = (Z.of_nat (length (queue st5))
        + (if server_busy st5 then 1 else 0))%Z /\
     (current_state st5 = 0%Z <-> server_busy st5 = false)).
Proof.
  do 10 eexists.
  split; [vm_compute; reflexivity|].
  split; [vm_compute; reflexivity|].
  split; [vm_compute; reflexivity|].
  split; [vm_compute; reflexivity|].
  split; [vm_compute; reflexivity|].
  split; [split; reflexivity|].
  split; [split; [reflexivity | split; reflexivity]|].
  assert (H1 : reachable 1 2 3 (initial_state 1)) by apply reachable_init.
  assert (H3 : reachable 2 1 3 (initial_state (1 # 2)))
    by apply reachable_init.
  split.
  - apply (population_is_line_plus_service 1 2 3).
    eapply (reachable_step 1 2 3 _ unit_draws);
      [ eapply (reachable_step 1 2 3 (initial_state 1) unit_draws);
        [exact H1 | reflexivity | vm_compute; reflexivity]
      | reflexivity | vm_compute; reflexivity ].
  - apply (population_is_line_plus_service 2 1 3).
    eapply (reachable_step 2 1 3 _ unit_draws);
      [ eapply (reachable_step 2 1 3 _ unit_draws);
        [ eapply (reachable_step 2 1 3 (initial_state (1 # 2)) unit_draws);
          [exact H3 | reflexivity | vm_compute; reflexivity]
        | reflexivity | vm_compute; reflexivity ]
      | reflexivity | vm_compute; reflexivity ].
Defined.

Lemma negative_horizon_result_witness :
  exists r p0,
    simulate_mm1_queue (fun _ => unit_draws) 1 0 (-1) None 5 long_draws
    = (Returned r, fun k => long_draws (S k)) /\
    total_customers r = 0%nat /\ completed_customers r = 0%nat /\
    total_system_time r = 0 /\ total_queue_time r = 0 /\
    average_system_time r = 0 /\ average_queue_time r = 0 /\
    server_busy_time r = 0 /\
    server_utilization r == 0 /\
    average_system_length r == 0 /\ average_queue_length r == 0 /\
    state_probabilities r !! 0%Z = Some p0 /\ p0 == 1 /\
    forall n, n <> 0%Z -> state_probabilities r !! n = None.
Proof.
  apply (negative_horizon_result (fun _ => unit_draws) 1 0 (-1) None 5%nat
           long_draws).
  - exact I.
  - reflexivity.
  - reflexivity.
Defined.

Lemma first_arrival_after_horizon_result_witness :
  exists r g',
    overshoot_run = (Returned r, g') /\
    total_customers r = 1%nat /\ completed_customers r = 0%nat /\
    average_system_time r = 0 /\ average_queue_time r = 0 /\
    average_queue_length r == 0 /\
    average_system_length r
    == ((1 # 10) - 1 / 1 * seed42_draws 0%nat) / (1 # 10) /\
    average_system_length r < 0.
Proof.
  apply (first_arrival_after_horizon_result (fun _ => seed42_draws) 1 1
           (1 # 10) (Some 42%Z) 9%nat unit_draws).
  - reflexivity.
  - reflexivity.
  - reflexivity.
  - reflexivity.
  - reflexivity.
  - discriminate.
Defined.

Lemma report_table_lists_every_count_witness :
  exists r rep g',
    congested_report = (Returned (r, rep), g') /\
    congested_run = (Returned r, g') /\
    exists m : Z,
      (0 <= m)%Z /\
      (state_rows rep).*1 = py_range (m + 1) /\
      (forall i p,
         (i, p) ∈ state_rows rep <-> state_probabilities r !! i = Some p).
Proof.
  eexists. eexists. eexists. split; [vm_compute; reflexivity|].
  apply (report_table_lists_every_count (fun _ => unit_draws) 2 1 3
           (Some 42%Z) 20%nat long_draws).
  vm_compute. reflexivity.
Defined.

Lemma wrapper_divides_by_service_rate_witness :
  (exists r,
     simulate_mm1_queue (fun _ => unit_draws) 1 0 (-1) None 5 long_draws
     = (Returned r, fun k => long_draws (S k))) /\
  run_mm1_simulation (fun _ => unit_draws) 1 0 (-1) None 5 long_draws
  = (Raised ZeroDivisionError, fun k => long_draws (S k)).
Proof.
  apply (wrapper_divides_by_service_rate (fun _ => unit_draws) 1 0 (-1)
           None 5%nat long_draws).
  - exact I.
  - reflexivity.
  - reflexivity.
  - reflexivity.
Defined.

Lemma scenarios_do_not_interfere_witness :
  exists rhos wqs g',
    Analysis.run_scenarios (fun _ => unit_draws) two_scenarios 3 42 20
      long_draws = (Returned (rhos, wqs), g') /\
    rhos = map (fun sc => Analysis.arrival_rate sc / Analysis.service_rate sc)
               two_scenarios /\
    forall h,
      Forall2
        (fun sc w =>
           exists r,
             (simulate_mm1_queue (fun _ => unit_draws)
                (Analysis.arrival_rate sc) (Analysis.service_rate sc)
                3 (Some 42%Z) 20 h).1 = Returned r /\
             w = average_queue_time r)
        two_scenarios wqs.
Proof.
  eexists. eexists. eexists. split; [vm_compute; reflexivity|].
  eapply (scenarios_do_not_interfere (fun _ => unit_draws) two_scenarios 3
            42%Z 20%nat long_draws).
  vm_compute. reflexivity.
Defined.

Lemma theoretical_curve_rises_witness :
  let grid := Analysis.rho_curve in
  let curve := Analysis.wq_theoretical Analysis.mu grid in
  length grid = 100%nat /\ length curve = 100%nat /\
  Forall (fun rho => 1 # 100 <= rho /\ rho <= 99 # 100
                     /\ 0 < Analysis.mu * (1 - rho)) grid /\
  StronglySorted Qlt grid /\
  Forall (fun w => 0 <= w) curve /\
  StronglySorted Qlt curve.
Proof.
  apply (theoretical_curve_rises Analysis.mu (1 # 100) (99 # 100) 100).
  - reflexivity.
  - discriminate.
  - reflexivity.
  - reflexivity.
  - lia.
Defined.


Lemma departures_in_order_witness :
  exists r g',
    congested_run = (Returned r, g') /\
    exists st,
      congested_engine = (Returned st, g') /\
      StronglySorted Qle (map departure_time (customer_stats st)) /\
      List.filter (completed 3) (customer_stats st)
      = take (completed_customers r) (customer_stats st) /\
      Forall (fun c => 3 < departure_time c)
             (drop (completed_customers r) (customer_stats st)).
Proof.
  eexists. eexists. split; [vm_compute; reflexivity|].
  apply (departures_in_order (fun _ => unit_draws) 2 1 3 (Some 42%Z)
           20%nat long_draws).
  - intros k. discriminate.
  - vm_compute. reflexivity.
Defined.

(** ** The ledger in binary64 *)

Module Binary64Facts.

Import Floats.

#[local] Set Warnings "-inexact-float".

(** C1 fails on the program's own arithmetic.  In
    [simulate_mm1_queue(1e-9, 1, 0.1, seed=42)] the first arrival falls
    at about 4.69e8 and is processed although the horizon is 0.1; line
    78 then adds [0.1 - 4.69e8], which binary64 rounds to a multiple of
    2^-24, and the ledger adds up to 0.10000002384185791, a relative
    error of 2.4e-7.  In [simulate_mm1_queue(1e-17, 1, 1, seed=42)] the
    subtraction absorbs the horizon altogether: the ledger adds up to
    0 and so do the reported probabilities. *)
Theorem ledger_misses_horizon_in_binary64 :
  (exists ledger probabilities g',
     Binary64.sparse_arrivals_run = (Returned (ledger, probabilities), g') /\
     Binary64.ledger_total ledger = 0.10000002384185791%float /\
     (abs (Binary64.ledger_total ledger - 0.1) <=? 1e-9 * abs 0.1)%float
     = false) /\
  (exists ledger probabilities g',
     Binary64.sparser_arrivals_run = (Returned (ledger, probabilities), g') /\
     Binary64.ledger_total ledger = 0%float /\
     (abs (Binary64.ledger_total ledger - 1) <=? 1e-9 * abs 1)%float = false /\
     Binary64.ledger_total probabilities = 0%float /\
     (abs (Binary64.ledger_total probabilities - 1) <=? 1e-9)%float = false).
Proof.
  split.
  - do 3 eexists. split; [vm_compute; reflexivity|].
    split; vm_compute; reflexivity.
  - do 3 eexists. split; [vm_compute; reflexivity|].
    repeat split; vm_compute; reflexivity.
Qed.

End Binary64Facts.
